(** * Argilla: front-end widgets and tutorial scripts

    A shallow embedding of the code the specification talks about:

    - the computed properties of the Vue components [BaseButton]
      ([newRel]) and [BaseTableInfo] ([filteredResults], [tableIsEmpty])
      and the [sort] method of the latter;
    - the Python cells of the active-learning tutorial
      ([evaluate_records], the dataset-creation cell, the body of the
      listener) and of the DVC tutorial ([dataset_backupper]).

    JavaScript values are an inductive type; numbers are the
    integer-valued ones (a [Z]), strings are sequences of 8-bit code
    units.  Python floats are only ever compared, so a score is the
    rational it denotes.  Calls to the outside world (annotation server,
    classifier, shell, clock) go through a record of oracle functions
    over an abstract world, and every such call is logged in a trace. *)

From Stdlib Require Import ZArith QArith List String Ascii Bool Lia.
From Stdlib Require Import Permutation Sorted DecimalString.
From stdpp Require Import gmap strings.

Import ListNotations.
Local Open Scope string_scope.
Local Open Scope list_scope.
Local Open Scope Z_scope.

Set Warnings "-register-all".

(** ** Exceptions and results *)

(** The exceptions of both languages.  [KeyboardInterrupt] and
    [SystemExit] derive from Python's [BaseException] only; the others are
    instances of [Exception]. *)
Inductive exn : Type :=
| TypeError (msg : string)
| ValueError (msg : string)
| KeyError (key : string)
| ApiError (msg : string)
| KeyboardInterrupt
| SystemExit.

Definition is_Exception (e : exn) : bool :=
  match e with
  | KeyboardInterrupt | SystemExit => false
  | _ => true
  end.

Inductive result (A : Type) : Type :=
| Ok (a : A)
| Raise (e : exn).
Arguments Ok {A} a.
Arguments Raise {A} e.

#[export] Instance result_ret : MRet result := fun A a => Ok a.

#[export] Instance result_bind : MBind result := fun A B k r =>
  match r with
  | Ok a => k a
  | Raise e => Raise e
  end.

(** Decimal notation of an integer, as both [String(n)] and [str(n)]
    print it. *)
Definition Z_to_string (n : Z) : string := NilZero.string_of_int (Z.to_int n).

(** ** JavaScript values *)

Module JS.

(** Arrays and plain objects carry the reference they live at, which is
    what [===] compares. *)
Inductive value : Type :=
| VUndefined
| VNull
| VBool (b : bool)
| VNum (n : Z)
| VStr (s : string)
| VArr (ref : nat) (elems : list value)
| VObj (ref : nat) (fields : list (string * value)).

(** The own properties of a plain object, in insertion order. *)
Definition object := list (string * value).

(** [o[k]] on a plain object: the own property, [undefined] when there is
    none (members inherited from [Object.prototype] are not modelled). *)
Fixpoint get (o : object) (k : string) : value :=
  match o with
  | [] => VUndefined
  | (k', v) :: o' => if String.eqb k' k then v else get o' k
  end.

(** [v[k]] for a property name that no primitive, array or function
    defines (such as "value" or "key"): [TypeError] on [undefined] and
    [null], the own property on a plain object, [undefined] elsewhere. *)
Definition get_prop (v : value) (k : string) : result value :=
  match v with
  | VUndefined | VNull => Raise (TypeError "Cannot read properties of undefined")
  | VObj _ o => Ok (get o k)
  | _ => Ok VUndefined
  end.

(** [String(v)], the abstract operation ToString. *)
Fixpoint to_String (v : value) : string :=
  match v with
  | VUndefined => "undefined"
  | VNull => "null"
  | VBool true => "true"
  | VBool false => "false"
  | VNum n => Z_to_string n
  | VStr s => s
  | VArr _ l =>
      (fix join (l : list value) : string :=
         match l with
         | [] => ""
         | x :: rest =>
             let sx := match x with
                       | VUndefined | VNull => ""
                       | _ => to_String x
                       end in
             match rest with
             | [] => sx
             | _ => String.append sx (String.append "," (join rest))
             end
         end) l
  | VObj _ _ => "[object Object]"
  end.

(** [v.toString()]: a method call, so it throws on [undefined] and
    [null]. *)
Definition toString (v : value) : result string :=
  match v with
  | VUndefined | VNull => Raise (TypeError "Cannot read properties of undefined (reading 'toString')")
  | _ => Ok (to_String v)
  end.

Definition lower_ascii (c : ascii) : ascii :=
  let n := N_of_ascii c in
  if ((65 <=? n) && (n <=? 90))%N then ascii_of_N (n + 32) else c.

(** [s.toLowerCase()], on ASCII letters. *)
Fixpoint toLowerCase (s : string) : string :=
  match s with
  | EmptyString => EmptyString
  | String c s' => String (lower_ascii c) (toLowerCase s')
  end.

(** [s.includes(q)] *)
Fixpoint includes (s q : string) : bool :=
  String.prefix q s ||
  match s with
  | EmptyString => false
  | String _ s' => includes s' q
  end.

(** ToBoolean *)
Definition truthy (v : value) : bool :=
  match v with
  | VUndefined | VNull => false
  | VBool b => b
  | VNum n => negb (n =? 0)%Z
  | VStr s => negb (String.eqb s "")
  | VArr _ _ | VObj _ _ => true
  end.

(** [a === b] (and SameValueZero, which differs on NaN only) *)
Definition strict_eq (a b : value) : bool :=
  match a, b with
  | VUndefined, VUndefined => true
  | VNull, VNull => true
  | VBool x, VBool y => Bool.eqb x y
  | VNum x, VNum y => (x =? y)%Z
  | VStr x, VStr y => String.eqb x y
  | VArr r _, VArr r' _ => Nat.eqb r r'
  | VObj r _, VObj r' _ => Nat.eqb r r'
  | _, _ => false
  end.

(** ToPrimitive on arrays and plain objects goes through [toString]. *)
Definition to_primitive (v : value) : value :=
  match v with
  | VArr _ _ | VObj _ _ => VStr (to_String v)
  | _ => v
  end.

Definition is_ws (c : ascii) : bool :=
  let n := N_of_ascii c in
  ((n =? 32) || ((9 <=? n) && (n <=? 13)))%N.

Fixpoint trim_left (s : string) : string :=
  match s with
  | String c s' => if is_ws c then trim_left s' else s
  | EmptyString => EmptyString
  end.

Fixpoint trim_right (s : string) : string :=
  match s with
  | EmptyString => EmptyString
  | String c s' =>
      let t := trim_right s' in
      if is_ws c && String.eqb t "" then EmptyString else String c t
  end.

Fixpoint parse_digits (s : string) (acc : Z) : option Z :=
  match s with
  | EmptyString => Some acc
  | String c s' =>
      let n := N_of_ascii c in
      if ((48 <=? n) && (n <=? 57))%N
      then parse_digits s' (10 * acc + Z.of_N (n - 48))
      else None
  end.

(** StringToNumber on the integer literals; [None] is NaN.  (Literals
    with a fraction, an exponent or a radix prefix denote numbers outside
    this model.) *)
Definition string_to_number (s : string) : option Z :=
  match trim_right (trim_left s) with
  | EmptyString => Some 0
  | String "-" (String _ _ as d) => option_map Z.opp (parse_digits d 0)
  | String "+" (String _ _ as d) => parse_digits d 0
  | String "-" EmptyString | String "+" EmptyString => None
  | d => parse_digits d 0
  end.

(** ToNumber of a primitive; [None] is NaN. *)
Definition to_number (v : value) : option Z :=
  match v with
  | VUndefined => None
  | VNull => Some 0
  | VBool b => Some (if b then 1 else 0)
  | VNum n => Some n
  | VStr s => string_to_number s
  | VArr _ _ | VObj _ _ => None
  end.

(** [a < b]: two strings compare by code units, anything else as
    numbers, and a comparison with NaN is false. *)
Definition lt (a b : value) : bool :=
  match to_primitive a, to_primitive b with
  | VStr x, VStr y => String.ltb x y
  | pa, pb =>
      match to_number pa, to_number pb with
      | Some x, Some y => (x <? y)%Z
      | _, _ => false
      end
  end.

(** [a > b] is [b < a] (the operands are primitives after ToPrimitive, so
    the order of evaluation does not show). *)
Definition gt (a b : value) : bool := lt b a.

(** [Array.prototype.filter] with a callback that may throw: the first
    exception aborts the whole call. *)
Fixpoint array_filter {A} (f : A -> result bool) (l : list A) : result (list A) :=
  match l with
  | [] => Ok []
  | x :: l' =>
      b ← f x;
      r ← array_filter f l';
      Ok (if b : bool then x :: r else r)
  end.

(** [Array.prototype.every]: stops at the first callback result that is
    not truthy. *)
Fixpoint array_every {A} (f : A -> result bool) (l : list A) : result bool :=
  match l with
  | [] => Ok true
  | x :: l' =>
      b ← f x;
      if b : bool then array_every f l' else Ok false
  end.

(** [Array.prototype.find]: the first element the callback accepts,
    [undefined] when there is none. *)
Fixpoint array_find (f : value -> result bool) (l : list value) : result value :=
  match l with
  | [] => Ok VUndefined
  | x :: l' =>
      b ← f x;
      if b : bool then Ok x else array_find f l'
  end.

(** [Array.prototype.includes] (SameValueZero) *)
Definition array_includes (l : list value) (v : value) : bool :=
  existsb (fun x => strict_eq x v) l.

(** [Array.prototype.sort] with a comparator.  The language fixes the
    result only for a consistent comparator, for which the sort is stable;
    the stable insertion sort below is that result. *)
Fixpoint sort_insert {A} (cmp : A -> A -> Z) (x : A) (l : list A) : list A :=
  match l with
  | [] => [x]
  | y :: l' => if (cmp x y <=? 0)%Z then x :: l else y :: sort_insert cmp x l'
  end.

Definition array_sort {A} (cmp : A -> A -> Z) (l : list A) : list A :=
  fold_right (sort_insert cmp) [] l.

End JS.

(** A prop declared with [type: String] holds a string, or [undefined]
    when the parent does not pass it. *)
Definition of_prop (o : option string) : JS.value :=
  match o with
  | Some s => JS.VStr s
  | None => JS.VUndefined
  end.

(** ** BaseButton.vue *)

Module BaseButton.
Import JS.

(** [to] may also be a route object, which is truthy like a non-empty
    string. *)
Record props : Type := {
  href : option string;
  target : option string;
  rel : option string;
  to : option string
}.

Inductive tag : Type := Anchor | NuxtLink | Button.

(** The [v-if] / [v-else-if] / [v-else] chain of the template. *)
Definition rendered (p : props) : tag :=
  if truthy (of_prop (href p)) then Anchor
  else if truthy (of_prop (to p)) then NuxtLink
  else Button.

Definition newRel (p : props) : option string :=
  if strict_eq (of_prop (target p)) (VStr "_blank") then
    if truthy (of_prop (rel p)) then rel p else Some "noopener"
  else rel p.

End BaseButton.

(** ** BaseTableInfo.vue *)

Module BaseTableInfo.
Import JS.

(** A row of the table is a plain object. *)
Definition item := object.

Record column : Type := {
  field : option string;
  sortable : bool;
  filtrable : bool
}.

Record active_filter : Type := {
  af_column : string;
  af_values : list value
}.

Record props : Type := {
  data : list item;
  searchOn : option string;
  sortedOrder : string;
  sortedByField : option string;
  querySearch : option string;
  activeFilters : list active_filter
}.


(** The reactive data of the component; [filters] is the object that
    maps a column to its selected options, in insertion order. *)
Record state : Type := {
  sortOrder : string;
  sortedBy : option string;
  filters : list (string * list value)
}.

Record component : Type := {
  c_props : props;
  c_data : state
}.

Inductive event : Type :=
| SortColumn (field : option string) (order : string)
| FilterApplied (column : option string) (values : list value).

(** [data()] *)
Definition initial_data (p : props) : state := {|
  sortOrder := sortedOrder p;
  sortedBy := sortedByField p;
  filters := []
|}.

(** [this.$set(object, key, value)] *)
Fixpoint vue_set {V} (o : list (string * V)) (k : string) (v : V) : list (string * V) :=
  match o with
  | [] => [(k, v)]
  | (k', v') :: o' =>
      if String.eqb k' k then (k, v) :: o' else (k', v') :: vue_set o' k v
  end.

(** [this.$delete(object, key)] *)
Definition vue_delete {V} (o : list (string * V)) (k : string) : list (string * V) :=
  List.filter (fun kv => negb (String.eqb (fst kv) k)) o.

Definition beforeMount (p : props) (st : state) : state :=
  let appliedFilters :=
    List.filter (fun f => negb (Nat.eqb (List.length (af_values f)) 0)) (activeFilters p) in
  {| sortOrder := sortOrder st;
     sortedBy := sortedByField p;
     filters := fold_left (fun fs f => vue_set fs (af_column f) (af_values f))
                          appliedFilters (filters st) |}.

(** The component as mounted with props [p]. *)
Definition mount (p : props) : component :=
  {| c_props := p; c_data := beforeMount p (initial_data p) |}.

(** The property name [item[x]] reads for a string-or-undefined [x]. *)
Definition key_of (x : option string) : string := to_String (of_prop x).

Definition isObject (obj : value) : bool :=
  match obj with
  | VObj _ _ => true
  | _ => false
  end.

Definition matchSearch (p : props) (it : item) : result bool :=
  match querySearch p with
  | None => Ok true
  | Some q =>
      let querySearch := toLowerCase q in
      if truthy (of_prop (searchOn p)) then
        s ← toString (get it (key_of (searchOn p)));
        Ok (includes (toLowerCase s) querySearch)
      else Ok false
  end.

(** [this.filters] is an object, hence truthy: the guard around the
    [every] always holds. *)
Definition matchFilters (st : state) (it : item) : result bool :=
  array_every
    (fun kf : string * list value =>
       let (key, selected) := kf in
       if isObject (get it key) then
         found ← array_find
             (fun filter =>
                fvalue ← get_prop filter "value";
                fkey ← get_prop filter "key";
                sub ← get_prop (get it key) (to_String fkey);
                Ok (strict_eq fvalue sub))
             selected;
         Ok (truthy found)
       else Ok (array_includes selected (get it key)))
    (filters st).

Definition modifier (p : props) : Z :=
  if String.eqb (sortedOrder p) "desc" then -1 else 1.

Definition itemComparator (p : props) (st : state) (a b : item) : Z :=
  let k := key_of (sortedBy st) in
  if lt (get a k) (get b k) then -1 * modifier p
  else if gt (get a k) (get b k) then 1 * modifier p
  else 0.

Definition filteredResults (p : props) (st : state) : result (list item) :=
  searched ← array_filter (matchSearch p) (data p);
  results ← array_filter (matchFilters st) searched;
  Ok (array_sort (itemComparator p st) results).

(** An array is truthy, so the conjunction is its right operand. *)
Definition tableIsEmpty (p : props) (st : state) : result bool :=
  results ← filteredResults p st;
  Ok (Nat.eqb (List.length results) 0).

Definition sort (c : column) (vm : component) : component * list event :=
  let st := c_data vm in
  let emitted := [SortColumn (field c) (sortOrder st)] in
  let st1 := {| sortOrder := sortOrder st; sortedBy := field c; filters := filters st |} in
  let st2 :=
    if strict_eq (of_prop (field c)) (of_prop (sortedBy st1)) then
      {| sortOrder := if String.eqb (sortOrder st1) "asc" then "desc" else "asc";
         sortedBy := sortedBy st1;
         filters := filters st1 |}
    else st1 in
  ({| c_props := c_props vm; c_data := st2 |}, emitted).

Definition onApplyFilters (c : column) (selectedOptions : list value) (vm : component)
  : component * list event :=
  let st := c_data vm in
  let fs :=
    if negb (Nat.eqb (List.length selectedOptions) 0)
    then vue_set (filters st) (key_of (field c)) selectedOptions
    else vue_delete (filters st) (key_of (field c)) in
  ({| c_props := c_props vm;
      c_data := {| sortOrder := sortOrder st; sortedBy := sortedBy st; filters := fs |} |},
   [FilterApplied (field c) selectedOptions]).

(** *** The table as the specification words it *)







End BaseTableInfo.


(** ** The notebooks' runtime *)

Module Py.

(** [rg.TextClassificationRecord], the attributes the notebooks touch.  A
    prediction is [list(pred.items())]: labels with their scores. *)
Record record : Type := {
  text : string;
  prediction : option (list (string * Q));
  annotation : option string;
  status : string;
  metadata : gmap string Z
}.

(** Calls that leave the notebook. *)
Inductive call : Type :=
| RgLoad (name : string) (query : option string) (limit : option Z)
| RgDelete (name : string)
| RgConfigureDatasetSettings (name : string) (label_schema : list string)
| RgLog (records : list record) (name : string)
| RgSearch (dataset query : string) (query_params : gmap string Z)
| ClassifierPipe (texts : list string)
| ClassifierSetTrainingData (data : gmap string (list string))
| ToPickle (records : list record) (path : string)
| GlobGlob (pattern : string)
| OsSystem (command : string)
| TimeSleep (secs : Z)
| Print (line : string).

Inductive event : Type :=
| Called (c : call)
| Raised (e : exn).

Section Machine.
Context {W : Type}.

(** The outside world and the log of what the script did to it. *)
Record machine : Type := {
  world : W;
  trace : list event
}.

Definition M (A : Type) : Type := machine -> result A * machine.

#[export] Instance M_ret : MRet M := fun A a s => (Ok a, s).

#[export] Instance M_bind : MBind M := fun A B k m s =>
  match m s with
  | (Ok a, s') => k a s'
  | (Raise e, s') => (Raise e, s')
  end.

Definition log (ev : event) (s : machine) : machine :=
  {| world := world s; trace := trace s ++ [ev] |}.

(** [raise e] *)
Definition raise {A} (e : exn) : M A := fun s => (Raise e, log (Raised e) s).

(** A built-in that returns or raises. *)
Definition lift {A} (r : result A) : M A :=
  match r with
  | Ok a => mret a
  | Raise e => raise e
  end.

(** An external call: the oracle answers or raises. *)
Definition invoke {A} (c : call) (oracle : W -> result A * W) : M A := fun s =>
  let (r, w) := oracle (world s) in
  let s' := {| world := w; trace := trace s ++ [Called c] |} in
  match r with
  | Ok a => (Ok a, s')
  | Raise e => (Raise e, log (Raised e) s')
  end.

(** [try: body / except Exception: handler] *)
Definition try_except_Exception {A} (body handler : M A) : M A := fun s =>
  match body s with
  | (Raise e, s') => if is_Exception e then handler s' else (Raise e, s')
  | ok => ok
  end.

(** [for x in l: body] *)
Fixpoint for_each {A} (l : list A) (body : A -> M unit) : M unit :=
  match l with
  | [] => mret tt
  | x :: l' => body x;; for_each l' body
  end.

(** How a loop body ends: it falls through to the next test, or leaves
    the loop by [break]. *)
Inductive signal : Type := Next | Break.

(** What is known of a loop after some number of tests of its
    condition. *)
Inductive outcome : Type :=
| Returned
| Failed (e : exn)
| Unfinished.

(** [while cond: body], run for at most [fuel] tests. *)
Fixpoint py_while (fuel : nat) (cond : M bool) (body : M signal) (s : machine)
  : outcome * machine :=
  match fuel with
  | O => (Unfinished, s)
  | S fuel' =>
      match cond s with
      | (Raise e, s1) => (Failed e, s1)
      | (Ok false, s1) => (Returned, s1)
      | (Ok true, s1) =>
          match body s1 with
          | (Raise e, s2) => (Failed e, s2)
          | (Ok Break, s2) => (Returned, s2)
          | (Ok Next, s2) => py_while fuel' cond body s2
          end
      end
  end.

(** The services the notebooks call. *)
Record env : Type := {
  rg_load : string -> option string -> option Z -> W -> result (list record) * W;
  rg_delete : string -> W -> result unit * W;
  rg_configure_dataset_settings : string -> list string -> W -> result unit * W;
  rg_log : list record -> string -> W -> result unit * W;
  rg_search : string -> string -> gmap string Z -> W -> result (Z * list record) * W;
  classifier_pipe : list string -> W -> result (list (list (string * Q))) * W;
  classifier_set_training_data : gmap string (list string) -> W -> result unit * W;
  to_pickle : list record -> string -> W -> result unit * W;
  glob_glob : string -> W -> result (list string) * W;
  os_system : string -> W -> Z * W;
  clock : Z -> W -> W
}.

(** [time.sleep(secs)] refuses a negative length. *)
Definition time_sleep (E : env) (secs : Z) : M unit :=
  invoke (TimeSleep secs)
    (fun w => if secs <? 0
              then (Raise (ValueError "sleep length must be non-negative"), w)
              else (Ok tt, clock E secs w)).

(** [os.system(command)] returns the exit status; a failing command
    does not raise. *)
Definition system (E : env) (command : string) : M Z :=
  invoke (OsSystem command) (fun w => let (st, w') := os_system E command w in (Ok st, w')).

Definition print (line : string) : M unit :=
  invoke (Print line) (fun w => (Ok tt, w)).

End Machine.
Arguments machine W : clear implicits.
Arguments M W A : clear implicits.
Arguments env W : clear implicits.



(** [x > y] on floats *)
Definition float_gt (x y : Q) : bool := negb (Qle_bool x y).

(** [max(l, key=key)]: the first element whose key no other exceeds. *)
Fixpoint max_from {A} (key : A -> Q) (best : A) (l : list A) : A :=
  match l with
  | [] => best
  | x :: l' => max_from key (if float_gt (key x) (key best) then x else best) l'
  end.

Definition py_max {A} (key : A -> Q) (l : list A) : result A :=
  match l with
  | [] => Raise (ValueError "max() arg is an empty sequence")
  | x :: l' => Ok (max_from key x l')
  end.

(** [l[a:b]] *)
Definition clamp_index (len i : Z) : Z :=
  Z.max 0 (Z.min len (if i <? 0 then i + len else i)).

Definition py_slice {A} (l : list A) (a b : Z) : list A :=
  let len := Z.of_nat (List.length l) in
  let lo := clamp_index len a in
  let hi := clamp_index len b in
  firstn (Z.to_nat (hi - lo)) (skipn (Z.to_nat lo) l).

(** The list after the objects of [l[a:b]] have been updated in place to
    [updated]. *)
Definition slice_updated {A} (l : list A) (a : Z) (updated : list A) : list A :=
  let lo := Z.to_nat (clamp_index (Z.of_nat (List.length l)) a) in
  firstn lo l ++ updated ++ skipn (lo + List.length updated) l.

(** [d[k]] *)
Definition py_getitem {V} (d : gmap string V) (k : string) : result V :=
  match d !! k with
  | Some v => Ok v
  | None => Raise (KeyError k)
  end.

End Py.

(** ** training-textclassification-classyclassification-activelearning.ipynb *)

Module ActiveLearning.
Import Py.

Definition NUM_SAMPLES_PER_LOOP : Z := 5.

(** The float [0.9]: the double nearest to nine tenths. *)
Definition CERTAINTY_THRESHOLD : Q := 8106479329266893 # 9007199254740992.

Definition DATASET_NAME : string := "news-active-learning".

(** The globals later cells read: [loop_data] (another name of the dict
    [data]) and the loaded dataset [ds]. *)
Record globals : Type := {
  loop_data : gmap string (list string);
  ds : list record
}.

(** The [for pred, rec in zip(predictions, records)] loop; [zip] stops at
    the shorter list, and the function returns [records] itself. *)
Fixpoint evaluate_loop (predictions : list (list (string * Q))) (records : list record)
  (idx : Z) : result (list record) :=
  match predictions, records with
  | pred :: predictions', rec :: records' =>
      max_score ← py_max snd pred;
      let rec1 :=
        if float_gt (snd max_score) CERTAINTY_THRESHOLD then
          {| text := text rec;
             prediction := prediction rec;
             annotation := Some (fst max_score);
             status := "Validated";
             metadata := metadata rec |}
        else rec in
      let rec2 :=
        {| text := text rec1;
           prediction := Some pred;
           annotation := annotation rec1;
           status := status rec1;
           metadata := {[ "idx" := idx ]} |} in
      rest ← evaluate_loop predictions' records' idx;
      Ok (rec2 :: rest)
  | _, _ => Ok records
  end.


Section Notebook.
Context {W : Type} (E : env W).

Definition evaluate_records (records : list record) (idx : Z) : M W (list record) :=
  let texts := map text records in
  predictions ← invoke (ClassifierPipe texts) (classifier_pipe E texts);
  lift (evaluate_loop predictions records idx).


(** The arguments of the [@listener] decorator. *)
Record search : Type := { total : Z }.

Record context : Type := { query_params : gmap string Z }.

Record listener_config : Type := {
  l_dataset : string;
  l_query : string;
  l_condition : search -> bool;
  execution_interval_in_seconds : Z;
  l_query_params : gmap string Z
}.

Definition active_learning_listener : listener_config := {|
  l_dataset := DATASET_NAME;
  l_query := "(status:Validated OR status:Discarded) AND metadata.idx:{idx}";
  l_condition := fun search => (total search =? NUM_SAMPLES_PER_LOOP)%Z;
  execution_interval_in_seconds := 1;
  l_query_params := {[ "idx" := 0 ]}
|}.

(** [for rec in records: if rec.status == "Validated":
    loop_data[rec.annotation].append(rec.text)] *)
Fixpoint collect_validated (records : list record) (loop_data : gmap string (list string))
  : result (gmap string (list string)) :=
  match records with
  | [] => Ok loop_data
  | rec :: records' =>
      if String.eqb (status rec) "Validated" then
        let label := default "None" (annotation rec) in
        texts ← (match annotation rec with
                 | Some _ => py_getitem loop_data label
                 | None => Raise (KeyError label)
                 end);
        collect_validated records' (<[ label := texts ++ [text rec] ]> loop_data)
      else collect_validated records' loop_data
  end.

(** The decorated function. *)
Definition active_learning_loop (records : list record) (ctx : context) (g : globals)
  : M W (context * globals) :=
  idx ← lift (py_getitem (query_params ctx) "idx");
  let new_idx := idx + NUM_SAMPLES_PER_LOOP in
  print "1. train a few-shot classifier with validated data";;
  loop_data ← lift (collect_validated records (loop_data g));
  invoke (ClassifierSetTrainingData loop_data) (classifier_set_training_data E loop_data);;
  print "2. get new record predictions";;
  let ds_slice := py_slice (ds g) new_idx (new_idx + NUM_SAMPLES_PER_LOOP) in
  records_to_update ← evaluate_records ds_slice new_idx;
  let ds := slice_updated (ds g) new_idx records_to_update in
  let texts := map text ds_slice in
  predictions ← invoke (ClassifierPipe texts) (classifier_pipe E texts);
  print "3. update query params";;
  let ctx := {| query_params := <[ "idx" := new_idx ]> (query_params ctx) |} in
  print "4. Log the batch to Argilla";;
  invoke (RgLog records_to_update DATASET_NAME) (rg_log E records_to_update DATASET_NAME);;
  print "Done!";;
  print (String.append "Waiting for next "
           (String.append (Z_to_string new_idx) " annotations ..."));;
  mret (ctx, {| loop_data := loop_data; ds := ds |}).

(** Modelled from the spec: the [listener] decorator and its scheduler
    belong to the client library, which is not among the sources.  A
    listener is a polling loop that re-queries the server on a fixed
    interval; a poll runs the decorated function on the records found when
    the configured condition accepts the search result, and does nothing
    otherwise. *)
Definition listener_poll (cfg : listener_config)
  (action : list record -> context -> globals -> M W (context * globals))
  (ctx : context) (g : globals) : M W (context * globals) :=
  found ← invoke (RgSearch (l_dataset cfg) (l_query cfg) (query_params ctx))
                 (rg_search E (l_dataset cfg) (l_query cfg) (query_params ctx));
  if l_condition cfg {| total := fst found |}
  then action (snd found) ctx g
  else mret (ctx, g).

(** Modelled from the spec: the scheduler of the same library; [polls]
    rounds of query and wait. *)
Fixpoint listener_run (cfg : listener_config)
  (action : list record -> context -> globals -> M W (context * globals))
  (polls : nat) (ctx : context) (g : globals) : M W (context * globals) :=
  match polls with
  | O => mret (ctx, g)
  | S polls' =>
      cg ← listener_poll cfg action ctx g;
      time_sleep E (execution_interval_in_seconds cfg);;
      listener_run cfg action polls' (fst cg) (snd cg)
  end.

(** [active_learning_loop.start()] *)
Definition start (polls : nat) (g : globals) : M W (context * globals) :=
  listener_run active_learning_listener active_learning_loop polls
    {| query_params := l_query_params active_learning_listener |} g.

End Notebook.
End ActiveLearning.

(** ** The DVC tutorial *)

Module DvcBackup.
Import Py.

Section Notebook.
Context {W : Type} (E : env W).


(** The body of [for dataset_name in datasets]; [ds.to_pandas()] builds
    the frame that [to_pickle] writes. *)
Definition export_dataset (dataset_name : string) : M W unit :=
  ds ← invoke (RgLoad dataset_name None None) (rg_load E dataset_name None None);
  let path := String.append "data/" (String.append dataset_name ".pkl") in
  invoke (ToPickle ds path) (to_pickle E ds path).

(** One element of [[os.system(f'dvc add {file}') for file in files]];
    the list of exit statuses is dropped. *)
Definition dvc_add (file : string) : M W unit :=
  system E (String.append "dvc add " file);; mret tt.

(** One turn of the loop body. *)
Definition backup_iteration (datasets : list string) (duration : Z) : M W unit :=
  for_each datasets export_dataset;;
  files ← invoke (GlobGlob "data/*.pkl") (glob_glob E "data/*.pkl");
  for_each files dvc_add;;
  system E "dvc push";;
  system E "git commit -m 'update DVC files'";;
  system E "git push";;
  time_sleep E duration.

(** [while True:] around the body, which has neither [break] nor
    [return]. *)
Definition dataset_backupper (fuel : nat) (datasets : list string) (duration : Z)
  : machine W -> outcome * machine W :=
  py_while fuel (mret true) (backup_iteration datasets duration;; mret Next).


End Notebook.




End DvcBackup.


(** ** A stand-in for the services *)

Module Demo.
Import Py.

(** The world is the time slept so far.  The classifier is sure of
    [label] on a text that starts with "Stocks" and undecided otherwise;
    [delete_fails] says whether the dataset to delete is missing, and
    [total] is the count every search reports. *)
Definition demo_records : list record :=
  [ {| text := "Stocks rally as rates fall"; prediction := None; annotation := None;
       status := "Default"; metadata := ∅ |};
    {| text := "Late goal decides the derby"; prediction := None; annotation := None;
       status := "Default"; metadata := ∅ |} ].

Definition demo_env (label : string) (delete_fails : bool) (total : Z) : env Z := {|
  rg_load := fun _ _ _ w => (Ok demo_records, w);
  rg_delete := fun _ w =>
    (if delete_fails then Raise (ApiError "Dataset not found") else Ok tt, w);
  rg_configure_dataset_settings := fun _ _ w => (Ok tt, w);
  rg_log := fun _ _ w => (Ok tt, w);
  rg_search := fun _ _ _ w => (Ok (total, demo_records), w);
  classifier_pipe := fun texts w =>
    (Ok (map (fun t => if String.prefix "Stocks" t
                       then [(label, 19 # 20); ("World", 1 # 20)]
                       else [(label, 1 # 2); ("World", 1 # 2)]) texts), w);
  classifier_set_training_data := fun _ w => (Ok tt, w);
  to_pickle := fun _ _ w => (Ok tt, w);
  glob_glob := fun _ w => (Ok ["data/argilla-dvc.pkl"], w);
  os_system := fun _ w => (0, w);
  clock := fun secs w => w + secs
|}.

Definition demo_data : gmap string (list string) :=
  {[ "Business" := ["Oil prices climb"]; "World" := ["Talks resume"] ]}.

Definition boot : machine Z := {| world := 0; trace := [] |}.

End Demo.

(** ** Functions of their explicit inputs *)

Module Determinism.







End Determinism.

(** ** BaseTableInfo.vue: the other computed properties and methods *)

Module TableMethods.
Import JS BaseTableInfo.

(** [this.filters[key]] *)
Fixpoint filter_of (fs : list (string * list value)) (key : string)
  : option (list value) :=
  match fs with
  | [] => None
  | (k, selected) :: fs' => if String.eqb k key then Some selected else filter_of fs' key
  end.

(** The array index a property name denotes, if it is the decimal
    notation of one. *)
Definition array_index (k : string) : option nat :=
  match parse_digits k 0 with
  | Some n => if String.eqb (Z_to_string n) k then Some (Z.to_nat n) else None
  | None => None
  end.

(** [v[k]] for any property name: own properties of a plain object,
    length and elements of a string or an array, [undefined] elsewhere
    (inherited methods are not modelled), and a [TypeError] on [undefined]
    and [null]. *)
Definition member (v : value) (k : string) : result value :=
  match v with
  | VUndefined | VNull => Raise (TypeError "Cannot read properties of undefined")
  | VObj _ o => Ok (get o k)
  | VStr s =>
      if String.eqb k "length" then Ok (VNum (Z.of_nat (String.length s)))
      else match array_index k with
           | Some i => match String.get i s with
                       | Some c => Ok (VStr (String c EmptyString))
                       | None => Ok VUndefined
                       end
           | None => Ok VUndefined
           end
  | VArr _ l =>
      if String.eqb k "length" then Ok (VNum (Z.of_nat (List.length l)))
      else match array_index k with
           | Some i => Ok (nth i l VUndefined)
           | None => Ok VUndefined
           end
  | VBool _ | VNum _ => Ok VUndefined
  end.

(** The parts of a column that a cell reads. *)
Record cell_column : Type := {
  cell_field : option string;
  cell_subfield : option string
}.

Definition itemValue (it : item) (c : cell_column) : result value :=
  if truthy (of_prop (cell_subfield c)) then
    member (get it (key_of (cell_field c))) (key_of (cell_subfield c))
  else Ok (get it (key_of (cell_field c))).

(** [filterActions], from the props [actions] (an array of objects) and
    [hideButton] (a Boolean, [false] by default). *)
Definition filterActions (actions : list object) (hideButton : bool) : list object :=
  List.filter (fun a => negb (strict_eq (get a "hide") (VBool hideButton))) actions.

(** What the user does to a mounted table: a click on a sortable header,
    or a selection confirmed in a filtrable one. *)
Inductive action : Type :=
| ClickSort (c : column)
| ApplyFilters (c : column) (selectedOptions : list value).

Definition perform (vm : component) (a : action) : component :=
  match a with
  | ClickSort c => fst (sort c vm)
  | ApplyFilters c selectedOptions => fst (onApplyFilters c selectedOptions vm)
  end.

(** The component after a series of such actions. *)
Definition session (p : props) (actions : list action) : component :=
  fold_left perform actions (mount p).

(** Each column at most once, and never with an empty selection. *)
Definition filters_ok (fs : list (string * list value)) : Prop :=
  List.NoDup (map fst fs) /\ Forall (fun kf => snd kf <> []) fs.

(** The number of header clicks among the actions. *)
Definition clicks (actions : list action) : nat :=
  List.length (List.filter (fun a => match a with
                                     | ClickSort _ => true
                                     | ApplyFilters _ _ => false
                                     end) actions).

(** The selection the [activeFilters] prop holds for a column: the last
    entry for it among those that select something. *)
Fixpoint last_selection (afs : list active_filter) (key : string)
  : option (list value) :=
  match afs with
  | [] => None
  | f :: afs' =>
      match last_selection afs' key with
      | Some selected => Some selected
      | None =>
          if String.eqb (af_column f) key && negb (Nat.eqb (List.length (af_values f)) 0)
          then Some (af_values f) else None
      end
  end.

End TableMethods.

(** ** The [prefix-star] directive *)

Module PrefixStar.
Import JS.

(** The DOM nodes the directive sees and makes. *)
Inductive node : Type :=
| TextNode (data : string)
| ElementNode (tagName : string) (attributes : list (string * string))
    (style : list (string * string)) (childNodes : list node).

(** [binding?.value.name]: [undefined] without a binding, a [TypeError]
    when the binding has no value. *)
Definition binding_value (binding : option value) (name : string) : result value :=
  match binding with
  | None => Ok VUndefined
  | Some v => get_prop v name
  end.

(** The wrapper [sparkIcon.add] builds; [setAttribute] stores the text of
    its argument. *)
Definition emojiWrapper (tooltip : value) : node :=
  ElementNode "span" [("data-title", to_String tooltip)] [("font-size", "1.2em")]
    [TextNode "✨ "].

(** [sparkIcon.add], on the child nodes of [element]. *)
Definition sparkIcon_add (childNodes : list node) (binding : option value)
  : result (list node) :=
  if Nat.eqb (List.length childNodes) 2 then Ok childNodes
  else
    tooltip ← binding_value binding "tooltip";
    Ok (emojiWrapper tooltip :: childNodes).

(** [sparkIcon.remove] *)
Definition sparkIcon_remove (childNodes : list node) : list node :=
  if Nat.eqb (List.length childNodes) 2 then tl childNodes else childNodes.

(** The [update] hook. *)
Definition update (childNodes : list node) (binding : option value)
  : result (list node) :=
  enabled ← binding_value binding "enabled";
  if negb (truthy enabled) then Ok childNodes
  else
    show ← binding_value binding "show";
    if truthy show then sparkIcon_add childNodes binding
    else Ok (sparkIcon_remove childNodes).

(** The [bind] hook. *)
Definition bind (childNodes : list node) (binding : option value)
  : result (list node) :=
  enabled ← binding_value binding "enabled";
  if negb (truthy enabled) then Ok childNodes
  else
    show ← binding_value binding "show";
    if truthy show then sparkIcon_add childNodes binding
    else Ok childNodes.

(** A run of [update] calls, as the host re-renders. *)
Fixpoint updates (childNodes : list node) (bindings : list (option value))
  : result (list node) :=
  match bindings with
  | [] => Ok childNodes
  | binding :: bindings' =>
      childNodes' ← update childNodes binding;
      updates childNodes' bindings'
  end.

(** A binding value [{enabled, show, tooltip}]. *)
Definition star_binding (enabled show : bool) (tooltip : string) : option value :=
  Some (VObj 0 [("enabled", VBool enabled); ("show", VBool show);
                ("tooltip", VStr tooltip)]).

End PrefixStar.

(** ** The cell that gathers the first training examples *)

Module TrainingData.
Import Py.

Definition n_samples_per_class : nat := 5.

(** [data = {"World": [], "Sports": [], "Sci/Tech": [], "Business": []}] *)
Definition empty_data : gmap string (list string) :=
  {[ "World" := []; "Sports" := []; "Sci/Tech" := []; "Business" := [] ]}.

(** [all([len(value) == n_samples_per_class for key, value in
    data.items()])] *)
Definition all_full (data : gmap string (list string)) : bool :=
  forallb (fun kv : string * list string =>
             Nat.eqb (List.length (snd kv)) n_samples_per_class)
          (map_to_list data).

(** The [for idx, rec in enumerate(train_rg)] loop over the dict; on a
    [KeyError] the dict stays as the loop has left it. *)
Fixpoint enumerate_pass (train_rg : list record) (data : gmap string (list string))
  : result unit * gmap string (list string) :=
  match train_rg with
  | [] => (Ok tt, data)
  | rec :: train_rg' =>
      match annotation rec with
      | None => (Raise (KeyError "None"), data)
      | Some label =>
          match py_getitem data label with
          | Raise e => (Raise e, data)
          | Ok texts =>
              if (List.length texts <? n_samples_per_class)%nat
              then enumerate_pass train_rg' (<[ label := texts ++ [text rec] ]> data)
              else enumerate_pass train_rg' data
          end
      end
  end.

(** The machine of this cell holds the dict [data]. *)
Definition incomplete : M (gmap string (list string)) bool :=
  fun s => (Ok (negb (all_full (world s))), s).

Definition pass (train_rg : list record) : M (gmap string (list string)) signal :=
  fun s =>
    match enumerate_pass train_rg (world s) with
    | (Ok _, data) => (Ok Next, {| world := data; trace := trace s |})
    | (Raise e, data) => (Raise e, log (Raised e) {| world := data; trace := trace s |})
    end.

(** [while not all(...): for ...], run for at most [fuel] tests. *)
Definition collect_training_data (fuel : nat) (train_rg : list record)
  (data : gmap string (list string)) : outcome * machine (gmap string (list string)) :=
  py_while fuel incomplete (pass train_rg) {| world := data; trace := [] |}.

(** The texts of the records annotated [label], in order. *)
Definition texts_of (label : string) (train_rg : list record) : list string :=
  map text (List.filter (fun rec => match annotation rec with
                                    | Some l => String.eqb l label
                                    | None => false
                                    end) train_rg).

(** Every record carries a label that is a key of the dict. *)
Definition labelled_in (data : gmap string (list string)) (train_rg : list record) : Prop :=
  Forall (fun rec => exists label, annotation rec = Some label /\ label ∈ dom data) train_rg.

End TrainingData.


(** ** The body of the listener, record by record *)

Module LoopBody.
Import Py ActiveLearning.

(** The records the annotator has validated. *)
Definition validated (records : list record) : list record :=
  List.filter (fun rec => String.eqb (status rec) "Validated") records.

(** Every validated record carries a label that is a key of the dict. *)
Definition validated_in (loop_data : gmap string (list string)) (records : list record)
  : Prop :=
  Forall (fun rec => status rec = "Validated" ->
                     exists label, annotation rec = Some label /\ label ∈ dom loop_data)
         records.

(** The calls of a run of the body that completes, in the order of the
    statements. *)
Definition body_calls (loop_data : gmap string (list string)) (texts : list string)
  (batch : list record) (new_idx : Z) : list event :=
  [ Called (Print "1. train a few-shot classifier with validated data");
    Called (ClassifierSetTrainingData loop_data);
    Called (Print "2. get new record predictions");
    Called (ClassifierPipe texts);
    Called (ClassifierPipe texts);
    Called (Print "3. update query params");
    Called (Print "4. Log the batch to Argilla");
    Called (RgLog batch DATASET_NAME);
    Called (Print "Done!");
    Called (Print (String.append "Waiting for next "
                     (String.append (Z_to_string new_idx) " annotations ..."))) ].

End LoopBody.

(** ** The shell commands of a backup *)

Module DvcCommands.
Import Py.


(** The same services, with other exit statuses of the commands. *)
Definition with_statuses {W} (E : env W) (exit_status : string -> W -> Z) : env W := {|
  rg_load := rg_load E;
  rg_delete := rg_delete E;
  rg_configure_dataset_settings := rg_configure_dataset_settings E;
  rg_log := rg_log E;
  rg_search := rg_search E;
  classifier_pipe := classifier_pipe E;
  classifier_set_training_data := classifier_set_training_data E;
  to_pickle := to_pickle E;
  glob_glob := glob_glob E;
  os_system := fun command w => (exit_status command w, snd (os_system E command w));
  clock := clock E
|}.

End DvcCommands.

(** * Properties *)

(** Symbolic execution of a script: unfold the monad, then put the trace
    back in the shape [trace s ++ calls]. *)
Ltac norm_trace :=
  cbn [Py.world Py.trace fst snd]; rewrite <- ?List.app_assoc; cbn [List.app].

Ltac unfold_M :=
  unfold Py.try_except_Exception, Py.time_sleep, Py.system, Py.print, Py.invoke,
    Py.lift, Py.raise, Py.log, mbind, Py.M_bind, mret, Py.M_ret.

(** ** JavaScript helpers *)

Section JSFacts.
Import JS.

Lemma strict_eq_of_prop_refl (x : option string) :
  strict_eq (of_prop x) (of_prop x) = true.
Proof. destruct x as [s|]; simpl; [apply String.eqb_refl | reflexivity]. Qed.

Lemma strict_eq_of_prop (x : option string) (s : string) :
  strict_eq (of_prop x) (VStr s) = true <-> x = Some s.
Proof.
  destruct x as [t|]; simpl.
  - rewrite String.eqb_eq. split; congruence.
  - split; discriminate.
Qed.

Lemma truthy_of_prop (x : option string) :
  truthy (of_prop x) = true <-> exists s, x = Some s /\ s <> "".
Proof.
  destruct x as [t|]; simpl.
  - rewrite negb_true_iff, String.eqb_neq. split.
    + intros H. exists t. auto.
    + intros (s & [= ->] & H). exact H.
  - split; [discriminate | intros (s & H & _); discriminate].
Qed.


Lemma array_filter_pure {A} (f : A -> result bool) (g : A -> bool) (l : list A) :
  (forall x, In x l -> f x = Ok (g x)) ->
  array_filter f l = Ok (List.filter g l).
Proof.
  induction l as [|x l IH]; intros H; simpl; [reflexivity|].
  rewrite (H x) by (left; reflexivity). simpl.
  rewrite IH by (intros y Hy; apply H; right; exact Hy). simpl.
  reflexivity.
Qed.



Lemma sort_insert_perm {A} (cmp : A -> A -> Z) (x : A) (l : list A) :
  Permutation (sort_insert cmp x l) (x :: l).
Proof.
  induction l as [|y l IH]; simpl; [reflexivity|].
  destruct (cmp x y <=? 0); [reflexivity|].
  rewrite IH. apply perm_swap.
Qed.

Lemma array_sort_perm {A} (cmp : A -> A -> Z) (l : list A) :
  Permutation (array_sort cmp l) l.
Proof.
  induction l as [|x l IH]; simpl; [reflexivity|].
  rewrite sort_insert_perm. constructor. exact IH.
Qed.

Lemma array_sort_length {A} (cmp : A -> A -> Z) (l : list A) :
  List.length (array_sort cmp l) = List.length l.
Proof. apply Permutation_length, array_sort_perm. Qed.







End JSFacts.

(** ** BaseButton *)

Section BaseButtonFacts.
Import JS BaseButton.

(** C9.  With target "_blank" the computed [newRel] is never empty: it
    is the [rel] prop when that prop is a non-empty string, and
    "noopener" when the prop is absent or empty.  With any other target
    [newRel] is the [rel] prop unchanged.  (This holds whichever element
    the template renders, the anchor included.) *)
Theorem newRel_noopener_default (p : props) :
  (target p = Some "_blank" ->
     (exists s, newRel p = Some s /\ s <> "") /\
     (forall s, rel p = Some s -> s <> "" -> newRel p = Some s) /\
     (rel p = None \/ rel p = Some "" -> newRel p = Some "noopener")) /\
  (target p <> Some "_blank" -> newRel p = rel p).
Proof.
  unfold newRel. split.
  - intros Ht. rewrite Ht. simpl.
    destruct (rel p) as [s|] eqn:Hr; simpl.
    + destruct (String.eqb s "") eqn:Hs; simpl.
      * apply String.eqb_eq in Hs. subst s.
        split; [exists "noopener"; split; [reflexivity | discriminate]|].
        split; [intros s [= <-] Hne; congruence | reflexivity].
      * apply String.eqb_neq in Hs.
        split; [exists s; auto|].
        split; [intros s' [= <-] _; reflexivity|].
        intros [H|[= ->]]; [discriminate | congruence].
    + split; [exists "noopener"; split; [reflexivity | discriminate]|].
      split; [discriminate | reflexivity].
  - intros Ht.
    destruct (strict_eq (of_prop (target p)) (VStr "_blank")) eqn:Heq; [|reflexivity].
    apply strict_eq_of_prop in Heq. contradiction.
Qed.

Lemma newRel_noopener_default_witness :
  rendered {| href := Some "https://docs.argilla.io"; target := Some "_blank";
              rel := None; to := None |} = Anchor /\
  newRel {| href := Some "https://docs.argilla.io"; target := Some "_blank";
            rel := None; to := None |} = Some "noopener" /\
  newRel {| href := Some "https://docs.argilla.io"; target := Some "_self";
            rel := Some "nofollow"; to := None |} = Some "nofollow".
Proof.
  split; [reflexivity|]. split.
  - apply (newRel_noopener_default
             {| href := Some "https://docs.argilla.io"; target := Some "_blank";
                rel := None; to := None |}); [reflexivity | left; reflexivity].
  - apply (newRel_noopener_default
             {| href := Some "https://docs.argilla.io"; target := Some "_self";
                rel := Some "nofollow"; to := None |}). simpl. discriminate.
Defined.

End BaseButtonFacts.

(** ** BaseTableInfo *)

Section BaseTableInfoFacts.
Import JS BaseTableInfo.

(** [filteredResults] reads [sortedBy] and [filters] from the component
    data, and nothing else. *)
Lemma filteredResults_reads (p : props) (st st' : state) :
  sortedBy st = sortedBy st' -> filters st = filters st' ->
  filteredResults p st = filteredResults p st'.
Proof.
  destruct st, st'. simpl. intros -> ->. reflexivity.
Qed.

(** C8.  [sort(column)] leaves the props, and with them the direction
    modifier of the comparator, as they were; it assigns [sortedBy], and
    toggles the [sortOrder] data field on every call, since the guard
    compares [column.field] with the value just assigned.  [sortOrder] is
    not read by [filteredResults], so a second click on the same column
    leaves the rows where they are. *)
Theorem sort_keeps_direction (c : column) (vm : component) :
  let vm' := fst (sort c vm) in
  c_props vm' = c_props vm /\
  modifier (c_props vm') = modifier (c_props vm) /\
  (forall st a b,
     itemComparator (c_props vm') st a b = itemComparator (c_props vm) st a b) /\
  sortedBy (c_data vm') = field c /\
  sortOrder (c_data vm') =
    (if String.eqb (sortOrder (c_data vm)) "asc" then "desc" else "asc") /\
  filters (c_data vm') = filters (c_data vm) /\
  snd (sort c vm) = [SortColumn (field c) (sortOrder (c_data vm))] /\
  (forall order,
     filteredResults (c_props vm)
       {| sortOrder := order; sortedBy := field c; filters := filters (c_data vm) |} =
     filteredResults (c_props vm') (c_data vm')) /\
  filteredResults (c_props vm') (c_data (fst (sort c vm'))) =
    filteredResults (c_props vm') (c_data vm').
Proof.
  unfold sort. simpl. rewrite !strict_eq_of_prop_refl. simpl.
  repeat split; reflexivity.
Qed.

Lemma matchSearch_no_searchOn (p : props) (q : string) (it : item) :
  querySearch p = Some q -> searchOn p = None -> matchSearch p it = Ok false.
Proof. unfold matchSearch. intros -> ->. reflexivity. Qed.

(** C10.  With [querySearch] defined and [searchOn] undefined the search
    predicate rejects every item: [filteredResults] is empty and
    [tableIsEmpty] is true, whatever the data and the filters. *)
Theorem search_without_searchOn_empty (p : props) (st : state) (q : string) :
  querySearch p = Some q ->
  searchOn p = None ->
  (forall it, matchSearch p it = Ok false) /\
  filteredResults p st = Ok [] /\
  tableIsEmpty p st = Ok true.
Proof.
  intros Hq Hs.
  assert (Hm : forall it, matchSearch p it = Ok false).
  { intros it. apply (matchSearch_no_searchOn p q); assumption. }
  assert (Hf : filteredResults p st = Ok []).
  { unfold filteredResults.
    rewrite (array_filter_pure (matchSearch p) (fun _ => false))
      by (intros; apply Hm).
    replace (List.filter (fun _ : item => false) (data p)) with (@nil item)
      by (induction (data p); simpl; auto).
    reflexivity. }
  split; [exact Hm|]. split; [exact Hf|].
  unfold tableIsEmpty. rewrite Hf. reflexivity.
Qed.

Lemma search_without_searchOn_empty_witness :
  let p := {| data := [[("name", VStr "imdb")]; [("name", VStr "news")]];
              searchOn := None; sortedOrder := "desc"; sortedByField := Some "name";
              querySearch := Some "news";
              activeFilters := [{| af_column := "name"; af_values := [VStr "news"] |}] |} in
  filteredResults p (c_data (mount p)) = Ok [] /\
  tableIsEmpty p (c_data (mount p)) = Ok true.
Proof.
  intros p.
  apply (search_without_searchOn_empty p (c_data (mount p)) "news");
    reflexivity.
Defined.
















(** A row without the sort key compares equal to every other row, so
    the comparator orders nothing across it. *)
Example filteredResults_missing_sort_key :
  let rows := [ [("size", VNum 1)]; [("name", VStr "imdb")]; [("size", VNum 2)] ] in
  let p := {| data := rows; searchOn := None; sortedOrder := "desc";
              sortedByField := Some "size"; querySearch := None; activeFilters := [] |} in
  filteredResults p (c_data (mount p)) = Ok rows.
Proof. reflexivity. Qed.


End BaseTableInfoFacts.

(** ** What is a function of its explicit inputs *)

Section DeterminismFacts.
Import Py ActiveLearning Determinism Demo.






End DeterminismFacts.

(** ** The active learning notebook *)

Section ActiveLearningFacts.
Import Py ActiveLearning.

Lemma float_gt_lt (x y : Q) : float_gt x y = true <-> (y < x)%Q.
Proof.
  unfold float_gt. rewrite negb_true_iff. split.
  - intros H. apply Qnot_le_lt. intros Hle.
    apply Qle_bool_iff in Hle. congruence.
  - intros H. destruct (Qle_bool x y) eqn:Hb; [|reflexivity].
    apply Qle_bool_iff in Hb. exfalso. exact (Qlt_not_le _ _ H Hb).
Qed.

Lemma float_gt_le (x y : Q) : float_gt x y = false <-> (x <= y)%Q.
Proof.
  unfold float_gt. rewrite negb_false_iff. apply Qle_bool_iff.
Qed.

(** [max] returns an element of the sequence whose key bounds all the
    keys. *)
Lemma max_from_spec {A} (key : A -> Q) (l : list A) (best : A) :
  In (max_from key best l) (best :: l) /\
  forall x, In x (best :: l) -> (key x <= key (max_from key best l))%Q.
Proof.
  revert best. induction l as [|y l IH]; intros best; simpl.
  - split; [left; reflexivity|]. intros x [<-|[]]. apply Qle_refl.
  - destruct (IH (if float_gt (key y) (key best) then y else best)) as [Hin Hmax].
    split.
    + destruct Hin as [Hin|Hin]; [|right; right; exact Hin].
      destruct (float_gt (key y) (key best)); rewrite <- Hin; auto.
    + intros x [Hx|[Hx|Hx]].
      * subst x. eapply Qle_trans; [|apply Hmax; left; reflexivity].
        destruct (float_gt (key y) (key best)) eqn:Hg; [|apply Qle_refl].
        apply float_gt_lt in Hg. apply Qlt_le_weak. exact Hg.
      * subst x. eapply Qle_trans; [|apply Hmax; left; reflexivity].
        destruct (float_gt (key y) (key best)) eqn:Hg; [apply Qle_refl|].
        apply float_gt_le in Hg. exact Hg.
      * apply Hmax. right. exact Hx.
Qed.

Lemma py_max_spec {A} (key : A -> Q) (l : list A) :
  l <> [] ->
  exists m, py_max key l = Ok m /\ In m l /\ forall x, In x l -> (key x <= key m)%Q.
Proof.
  destruct l as [|x l]; [congruence|]. intros _.
  exists (max_from key x l). split; [reflexivity|]. apply max_from_spec.
Qed.

(** What the loop does to one record, given its prediction. *)
Lemma evaluate_loop_spec (predictions : list (list (string * Q)))
  (records : list record) (idx : Z) :
  List.length predictions = List.length records ->
  Forall (fun pred => pred <> []) predictions ->
  exists out,
    evaluate_loop predictions records idx = Ok out /\
    List.length out = List.length records /\
    forall (i : nat) rec pred,
      records !! i = Some rec -> predictions !! i = Some pred ->
      exists rec' label score,
        out !! i = Some rec' /\
        In (label, score) pred /\
        (forall l sc, In (l, sc) pred -> (sc <= score)%Q) /\
        text rec' = text rec /\
        prediction rec' = Some pred /\
        metadata rec' = {[ "idx" := idx ]} /\
        ((CERTAINTY_THRESHOLD < score)%Q ->
           annotation rec' = Some label /\ status rec' = "Validated") /\
        ((score <= CERTAINTY_THRESHOLD)%Q ->
           annotation rec' = annotation rec /\ status rec' = status rec).
Proof.
  revert records.
  induction predictions as [|pred predictions IH]; intros [|rec records] Hlen Hne;
    simpl in Hlen; try discriminate.
  - exists []. split; [reflexivity|]. split; [reflexivity|].
    intros i rec pred H. destruct i; discriminate.
  - inversion Hne as [|? ? Hpred Hne']; subst.
    destruct (py_max_spec snd pred Hpred) as ([label score] & Hmax & Hin & Hbound).
    destruct (IH records) as (out & Hout & Hlen' & Hall); [lia | exact Hne' |].
    simpl. rewrite Hmax. simpl. rewrite Hout. simpl.
    eexists. split; [reflexivity|]. split; [simpl; lia|].
    intros [|i] rec0 pred0 Hr Hp; simpl in Hr, Hp.
    + injection Hr as <-. injection Hp as <-.
      eexists _, label, score. split; [reflexivity|].
      split; [exact Hin|].
      split; [intros l sc Hl; apply (Hbound (l, sc) Hl)|].
      destruct (float_gt score CERTAINTY_THRESHOLD) eqn:Hg; simpl.
      * apply float_gt_lt in Hg.
        repeat split; try reflexivity;
          exfalso; eapply Qlt_not_le; eassumption.
      * apply float_gt_le in Hg.
        repeat split; try reflexivity;
          exfalso; eapply Qlt_not_le; eassumption.
    + destruct (Hall i rec0 pred0 Hr Hp) as (rec' & l & sc & H).
      exists rec', l, sc. exact H.
Qed.

(** C2.  Given one non-empty score list per record from the classifier,
    [evaluate_records] sets every record's prediction to its score list
    and its metadata to [{"idx": idx}]; a record whose top score exceeds
    the certainty threshold gets the top label as annotation and the status
    "Validated"; a record whose top score is at or below the threshold
    keeps its annotation and its status. *)
Theorem evaluate_records_validates_confident {W} (E : env W)
  (records : list record) (idx : Z) (s : machine W)
  (predictions : list (list (string * Q))) (w' : W) :
  classifier_pipe E (map text records) (world s) = (Ok predictions, w') ->
  List.length predictions = List.length records ->
  Forall (fun pred => pred <> []) predictions ->
  exists out,
    evaluate_records E records idx s
      = (Ok out, {| world := w';
                    trace := trace s ++ [Called (ClassifierPipe (map text records))] |}) /\
    List.length out = List.length records /\
    forall (i : nat) rec pred,
      records !! i = Some rec -> predictions !! i = Some pred ->
      exists rec' label score,
        out !! i = Some rec' /\
        In (label, score) pred /\
        (forall l sc, In (l, sc) pred -> (sc <= score)%Q) /\
        text rec' = text rec /\
        prediction rec' = Some pred /\
        metadata rec' = {[ "idx" := idx ]} /\
        ((CERTAINTY_THRESHOLD < score)%Q ->
           annotation rec' = Some label /\ status rec' = "Validated") /\
        ((score <= CERTAINTY_THRESHOLD)%Q ->
           annotation rec' = annotation rec /\ status rec' = status rec).
Proof.
  intros Hpipe Hlen Hne.
  destruct (evaluate_loop_spec predictions records idx Hlen Hne) as (out & Hout & Hrest).
  exists out. split; [|exact Hrest].
  unfold evaluate_records, mbind, M_bind, invoke. rewrite Hpipe. simpl.
  rewrite Hout. reflexivity.
Qed.

Lemma evaluate_records_validates_confident_witness :
  exists out,
    fst (evaluate_records (Demo.demo_env "Business" false 0) Demo.demo_records 0 Demo.boot)
      = Ok out /\
    map status out = ["Validated"; "Default"] /\
    map annotation out = [Some "Business"; None].
Proof.
  destruct (evaluate_records_validates_confident
              (Demo.demo_env "Business" false 0) Demo.demo_records 0 Demo.boot
              [ [("Business", 19 # 20); ("World", 1 # 20)];
                [("Business", 1 # 2); ("World", 1 # 2)] ] 0)
    as (out & Hrun & _ & _).
  - reflexivity.
  - reflexivity.
  - repeat constructor; discriminate.
  - exists out. rewrite Hrun. split; [reflexivity|].
    vm_compute in Hrun. injection Hrun as <-. split; reflexivity.
Defined.

Lemma listener_idle {W} (E : env W) (polls : nat) (ctx : context) (g : globals)
  (s : machine W) :
  (forall w, exists found w',
     rg_search E DATASET_NAME (l_query active_learning_listener) (query_params ctx) w
       = (Ok found, w') /\ fst found <> NUM_SAMPLES_PER_LOOP) ->
  exists s',
    listener_run E active_learning_listener (active_learning_loop E) polls ctx g s
      = (Ok (ctx, g), s') /\
    trace s' = trace s ++
      concat (replicate polls
                [ Called (RgSearch DATASET_NAME (l_query active_learning_listener)
                            (query_params ctx));
                  Called (TimeSleep 1) ]).
Proof.
  intros Hidle. revert s. induction polls as [|polls IH]; intros s.
  - exists s. split; [reflexivity|]. simpl. rewrite List.app_nil_r. reflexivity.
  - destruct (Hidle (world s)) as (found & w' & Hsearch & Hne).
    cbn [listener_run]. unfold listener_poll. unfold_M.
    change (l_dataset active_learning_listener) with DATASET_NAME.
    rewrite Hsearch.
    change (l_condition active_learning_listener {| total := fst found |})
      with (fst found =? NUM_SAMPLES_PER_LOOP).
    destruct (fst found =? NUM_SAMPLES_PER_LOOP) eqn:Hc;
      [apply Z.eqb_eq in Hc; contradiction|].
    change (execution_interval_in_seconds active_learning_listener) with 1.
    cbn [Z.ltb Z.compare fst snd world trace].
    match goal with
    | |- context [listener_run _ _ _ polls ctx g ?s1] =>
        destruct (IH s1) as (s' & Hrun & Htrace)
    end.
    exists s'. split; [exact Hrun|].
    rewrite Htrace. norm_trace. reflexivity.
Qed.

(** C4.  The listener is configured to poll every second; its
    condition accepts a search result iff the count [search.total] equals
    [NUM_SAMPLES_PER_LOOP], which is 5.  A poll that finds 5 records runs
    [active_learning_loop]; a poll that finds any other count runs nothing
    and leaves context and globals alone.  While no count is 5 the listener
    only alternates the same query with a sleep of one second. *)
Theorem listener_runs_body_on_five {W} (E : env W) :
  execution_interval_in_seconds active_learning_listener = 1 /\
  NUM_SAMPLES_PER_LOOP = 5 /\
  (forall found, l_condition active_learning_listener found = true <-> total found = 5) /\
  (forall ctx g (s : machine W) found w',
     rg_search E DATASET_NAME (l_query active_learning_listener) (query_params ctx) (world s)
       = (Ok found, w') ->
     let polled :=
       {| world := w';
          trace := trace s ++ [Called (RgSearch DATASET_NAME
                                         (l_query active_learning_listener)
                                         (query_params ctx))] |} in
     (fst found = 5 ->
        listener_poll E active_learning_listener (active_learning_loop E) ctx g s
          = active_learning_loop E (snd found) ctx g polled) /\
     (fst found <> 5 ->
        listener_poll E active_learning_listener (active_learning_loop E) ctx g s
          = (Ok (ctx, g), polled))) /\
  (forall polls g (s : machine W),
     (forall w, exists found w',
        rg_search E DATASET_NAME (l_query active_learning_listener) {[ "idx" := 0 ]} w
          = (Ok found, w') /\ fst found <> 5) ->
     exists s',
       start E polls g s = (Ok ({| query_params := {[ "idx" := 0 ]} |}, g), s') /\
       trace s' = trace s ++
         concat (replicate polls
                   [ Called (RgSearch DATASET_NAME (l_query active_learning_listener)
                               {[ "idx" := 0 ]});
                     Called (TimeSleep 1) ])).
Proof.
  split; [reflexivity|]. split; [reflexivity|]. split.
  { intros found. simpl. apply Z.eqb_eq. }
  split.
  - intros ctx g s found w' Hsearch polled. unfold listener_poll. unfold_M.
    change (l_dataset active_learning_listener) with DATASET_NAME.
    rewrite Hsearch.
    change (l_condition active_learning_listener {| total := fst found |})
      with (fst found =? NUM_SAMPLES_PER_LOOP).
    split; intros Hc.
    + rewrite Hc. reflexivity.
    + destruct (fst found =? NUM_SAMPLES_PER_LOOP) eqn:Hb; [|reflexivity].
      apply Z.eqb_eq in Hb. contradiction.
  - intros polls g s Hidle. unfold start.
    change (l_query_params active_learning_listener)
      with ({[ "idx" := 0 ]} : gmap string Z).
    exact (listener_idle E polls {| query_params := {[ "idx" := 0 ]} |} g s Hidle).
Qed.

Lemma listener_runs_body_on_five_witness :
  let g := {| loop_data := Demo.demo_data; ds := Demo.demo_records |} in
  let ctx := {| query_params := {[ "idx" := 0 ]} |} in
  listener_poll (Demo.demo_env "Business" false 3) active_learning_listener
      (active_learning_loop (Demo.demo_env "Business" false 3)) ctx g Demo.boot
    = (Ok (ctx, g),
       {| world := 0;
          trace := [Called (RgSearch DATASET_NAME (l_query active_learning_listener)
                              {[ "idx" := 0 ]})] |}) /\
  listener_poll (Demo.demo_env "Business" false 5) active_learning_listener
      (active_learning_loop (Demo.demo_env "Business" false 5)) ctx g Demo.boot
    = active_learning_loop (Demo.demo_env "Business" false 5) Demo.demo_records ctx g
        {| world := 0;
           trace := [Called (RgSearch DATASET_NAME (l_query active_learning_listener)
                               {[ "idx" := 0 ]})] |} /\
  exists s',
    start (Demo.demo_env "Business" false 3) 2 g Demo.boot = (Ok (ctx, g), s') /\
    trace s' =
      [ Called (RgSearch DATASET_NAME (l_query active_learning_listener) {[ "idx" := 0 ]});
        Called (TimeSleep 1);
        Called (RgSearch DATASET_NAME (l_query active_learning_listener) {[ "idx" := 0 ]});
        Called (TimeSleep 1) ].
Proof.
  intros g ctx.
  destruct (listener_runs_body_on_five (Demo.demo_env "Business" false 3))
    as (_ & _ & _ & Hpoll3 & Hidle).
  destruct (listener_runs_body_on_five (Demo.demo_env "Business" false 5))
    as (_ & _ & _ & Hpoll5 & _).
  split; [|split].
  - apply (Hpoll3 ctx g Demo.boot (3, Demo.demo_records) 0 eq_refl). simpl. lia.
  - apply (Hpoll5 ctx g Demo.boot (5, Demo.demo_records) 0 eq_refl). reflexivity.
  - apply (Hidle 2%nat g Demo.boot).
    intros w. exists (3, Demo.demo_records), w. split; [reflexivity | simpl; lia].
Defined.

End ActiveLearningFacts.

(** ** The DVC notebook *)

Section MachineFacts.
Import Py.
Context {W : Type}.










End MachineFacts.

Section DvcBackupFacts.
Import Py DvcBackup.
Context {W : Type} (E : env W).











End DvcBackupFacts.

Section DvcBackupClaims.
Import Py DvcBackup.




Lemma dataset_backupper_step {W} (E : env W) (fuel : nat)
  (datasets : list string) (duration : Z) (s : machine W) :
  dataset_backupper E (S fuel) datasets duration s =
    match backup_iteration E datasets duration s with
    | (Ok _, s') => dataset_backupper E fuel datasets duration s'
    | (Raise e, s') => (Failed e, s')
    end.
Proof.
  unfold dataset_backupper. cbn [py_while]. unfold mret at 1, M_ret at 1.
  unfold mbind at 1, M_bind at 1.
  destruct (backup_iteration E datasets duration s) as [[[]|e] s']; reflexivity.
Qed.





End DvcBackupClaims.

(** ** Exceptions *)

Section ExceptionClaims.
Import Py ActiveLearning DvcBackup.






End ExceptionClaims.

(** * Further properties *)

(** ** BaseTableInfo: cells, filters and sessions *)

Section TableMethodsFacts.
Import JS BaseTableInfo TableMethods.

(** X1.  [itemValue] reads [item[field]] when the column has no
    subfield and never throws then; with a subfield it reads the nested
    property, and throws exactly when [item[field]] is undefined or
    null. *)
Theorem itemValue_throws_on_missing_field (it : item) (c : cell_column) :
  (truthy (of_prop (cell_subfield c)) = false ->
     itemValue it c = Ok (get it (key_of (cell_field c)))) /\
  (forall r o,
     truthy (of_prop (cell_subfield c)) = true ->
     get it (key_of (cell_field c)) = VObj r o ->
     itemValue it c = Ok (get o (key_of (cell_subfield c)))) /\
  ((exists e, itemValue it c = Raise e) <->
     truthy (of_prop (cell_subfield c)) = true /\
     (get it (key_of (cell_field c)) = VUndefined \/
      get it (key_of (cell_field c)) = VNull)).
Proof.
  unfold itemValue. split; [|split].
  - intros ->. reflexivity.
  - intros r o -> ->. reflexivity.
  - destruct (truthy (of_prop (cell_subfield c))).
    + unfold member.
      destruct (get it (key_of (cell_field c))) as [| |b|n|s|r l|r o]; split;
        try (intros _; split; [reflexivity|]; auto; fail);
        try (intros _; eexists; reflexivity);
        try (intros [_ [H|H]]; discriminate H);
        intros [e He];
        repeat match type of He with
               | context [if ?b then _ else _] => destruct b
               | context [match ?x with _ => _ end] => destruct x
               end; discriminate He.
    + split; [intros [e He]; discriminate | intros [H _]; discriminate].
Qed.

Lemma itemValue_throws_on_missing_field_witness :
  itemValue [("name", VStr "news")]
            {| cell_field := Some "name"; cell_subfield := None |} = Ok (VStr "news") /\
  itemValue [("metrics", VObj 1 [("total", VNum 7)])]
            {| cell_field := Some "metrics"; cell_subfield := Some "total" |} = Ok (VNum 7) /\
  (exists e, itemValue [("name", VStr "news")]
               {| cell_field := Some "metrics"; cell_subfield := Some "total" |} = Raise e).
Proof.
  split; [|split].
  - apply (itemValue_throws_on_missing_field [("name", VStr "news")]
             {| cell_field := Some "name"; cell_subfield := None |}). reflexivity.
  - destruct (itemValue_throws_on_missing_field [("metrics", VObj 1 [("total", VNum 7)])]
                {| cell_field := Some "metrics"; cell_subfield := Some "total" |})
      as (_ & Hnested & _).
    exact (Hnested 1%nat [("total", VNum 7)] eq_refl eq_refl).
  - apply (itemValue_throws_on_missing_field [("name", VStr "news")]
             {| cell_field := Some "metrics"; cell_subfield := Some "total" |}).
    split; [reflexivity | left; reflexivity].
Defined.

(** *** The filters object *)

Lemma filter_of_vue_set_eq (fs : list (string * list value)) (k : string)
  (v : list value) :
  filter_of (vue_set fs k v) k = Some v.
Proof.
  induction fs as [|[k' v'] fs IH]; simpl.
  - rewrite String.eqb_refl. reflexivity.
  - destruct (String.eqb k' k) eqn:Hk; simpl.
    + rewrite String.eqb_refl. reflexivity.
    + rewrite Hk. exact IH.
Qed.

Lemma filter_of_vue_set_ne (fs : list (string * list value)) (k k' : string)
  (v : list value) :
  k <> k' -> filter_of (vue_set fs k v) k' = filter_of fs k'.
Proof.
  intros Hne. induction fs as [|[k0 v0] fs IH]; simpl.
  - apply String.eqb_neq in Hne. rewrite Hne. reflexivity.
  - destruct (String.eqb k0 k) eqn:Hk; simpl.
    + apply String.eqb_eq in Hk. subst k0.
      apply String.eqb_neq in Hne. rewrite Hne. reflexivity.
    + destruct (String.eqb k0 k'); [reflexivity | exact IH].
Qed.

Lemma filter_of_vue_delete_eq (fs : list (string * list value)) (k : string) :
  filter_of (vue_delete fs k) k = None.
Proof.
  unfold vue_delete. induction fs as [|[k' v'] fs IH]; simpl; [reflexivity|].
  destruct (String.eqb k' k) eqn:Hk; simpl; [exact IH|].
  rewrite Hk. exact IH.
Qed.

Lemma filter_of_vue_delete_ne (fs : list (string * list value)) (k k' : string) :
  k <> k' -> filter_of (vue_delete fs k) k' = filter_of fs k'.
Proof.
  intros Hne. unfold vue_delete. induction fs as [|[k0 v0] fs IH]; simpl; [reflexivity|].
  destruct (String.eqb k0 k) eqn:Hk; simpl.
  - apply String.eqb_eq in Hk. subst k0.
    apply String.eqb_neq in Hne. rewrite Hne. exact IH.
  - destruct (String.eqb k0 k'); [reflexivity | exact IH].
Qed.

Lemma vue_set_in (fs : list (string * list value)) (k : string) (v : list value)
  (kv : string * list value) :
  In kv (vue_set fs k v) -> kv = (k, v) \/ In kv fs.
Proof.
  induction fs as [|[k' v'] fs IH]; simpl.
  - intros [<-|[]]. left. reflexivity.
  - destruct (String.eqb k' k); simpl.
    + intros [<-|H]; [left; reflexivity | right; right; exact H].
    + intros [<-|H]; [right; left; reflexivity|].
      destruct (IH H) as [->|H']; [left; reflexivity | right; right; exact H'].
Qed.

Lemma vue_set_keys (fs : list (string * list value)) (k : string) (v : list value) :
  forall k', In k' (map fst (vue_set fs k v)) -> k' = k \/ In k' (map fst fs).
Proof.
  intros k' H. apply in_map_iff in H as ([k0 v0] & <- & Hin).
  apply vue_set_in in Hin as [[= -> ->]|Hin]; [left; reflexivity|].
  right. apply in_map_iff. exists (k0, v0). split; [reflexivity | exact Hin].
Qed.

Lemma vue_set_NoDup (fs : list (string * list value)) (k : string) (v : list value) :
  List.NoDup (map fst fs) -> List.NoDup (map fst (vue_set fs k v)).
Proof.
  induction fs as [|[k' v'] fs IH]; simpl; intros Hnd.
  - constructor; [intros [] | constructor].
  - inversion Hnd as [|? ? Hnotin Hnd']; subst.
    destruct (String.eqb k' k) eqn:Hk; simpl.
    + apply String.eqb_eq in Hk. subst k'. constructor; assumption.
    + constructor; [|apply IH; exact Hnd'].
      intros Hin. apply vue_set_keys in Hin as [->|Hin]; [|contradiction].
      rewrite String.eqb_refl in Hk. discriminate.
Qed.

Lemma vue_delete_NoDup (fs : list (string * list value)) (k : string) :
  List.NoDup (map fst fs) -> List.NoDup (map fst (vue_delete fs k)).
Proof.
  unfold vue_delete. induction fs as [|[k' v'] fs IH]; simpl; intros Hnd; [constructor|].
  inversion Hnd as [|? ? Hnotin Hnd']; subst.
  destruct (negb (String.eqb k' k)); simpl; [|apply IH; exact Hnd'].
  constructor; [|apply IH; exact Hnd'].
  intros Hin. apply Hnotin. apply in_map_iff in Hin as (kv & Hfst & Hin).
  apply filter_In in Hin as [Hin _]. apply in_map_iff. eauto.
Qed.

Lemma vue_delete_absent (fs : list (string * list value)) (k : string) :
  filter_of fs k = None -> vue_delete fs k = fs.
Proof.
  unfold vue_delete. induction fs as [|[k' v'] fs IH]; simpl; [reflexivity|].
  destruct (String.eqb k' k); simpl; [discriminate|].
  intros H. rewrite (IH H). reflexivity.
Qed.

Lemma vue_delete_vue_set (fs : list (string * list value)) (k : string)
  (v : list value) :
  filter_of fs k = None -> vue_delete (vue_set fs k v) k = fs.
Proof.
  unfold vue_delete. induction fs as [|[k' v'] fs IH]; simpl.
  - rewrite String.eqb_refl. reflexivity.
  - destruct (String.eqb k' k) eqn:Hk; simpl; [discriminate|].
    rewrite Hk. simpl. intros H. rewrite (IH H). reflexivity.
Qed.

(** X2.  A selection confirmed in a column header is what the filters
    object then holds for that column, an empty selection removes the
    column from it, and the entries of the other columns, the sort column
    and the sort order stay as they were. *)
Theorem onApplyFilters_stores_selection (c : column) (selectedOptions : list value)
  (vm : component) :
  let vm' := fst (onApplyFilters c selectedOptions vm) in
  filter_of (filters (c_data vm')) (key_of (field c))
    = (match selectedOptions with [] => None | _ => Some selectedOptions end) /\
  (forall k, k <> key_of (field c) ->
     filter_of (filters (c_data vm')) k = filter_of (filters (c_data vm)) k) /\
  sortedBy (c_data vm') = sortedBy (c_data vm) /\
  sortOrder (c_data vm') = sortOrder (c_data vm) /\
  c_props vm' = c_props vm /\
  snd (onApplyFilters c selectedOptions vm) = [FilterApplied (field c) selectedOptions].
Proof.
  unfold onApplyFilters. simpl.
  destruct selectedOptions as [|o os]; simpl.
  - split; [apply filter_of_vue_delete_eq|].
    split; [|repeat split].
    intros k Hk. apply filter_of_vue_delete_ne. congruence.
  - split; [apply filter_of_vue_set_eq|].
    split; [|repeat split].
    intros k Hk. apply filter_of_vue_set_ne. congruence.
Qed.

Lemma onApplyFilters_stores_selection_witness :
  let c := {| field := Some "task"; sortable := false; filtrable := true |} in
  let vm := mount {| data := []; searchOn := None; sortedOrder := "desc";
                     sortedByField := None; querySearch := None;
                     activeFilters := [{| af_column := "name";
                                          af_values := [VStr "news"] |}] |} in
  filter_of (filters (c_data (fst (onApplyFilters c [VStr "NER"] vm)))) "name"
    = Some [VStr "news"].
Proof.
  intros c vm.
  destruct (onApplyFilters_stores_selection c [VStr "NER"] vm) as (_ & Hother & _).
  rewrite (Hother "name"); [reflexivity | discriminate].
Defined.

(** X3.  Clearing a filter that was applied to a column without one
    restores the filters object, and with it the rows shown. *)
Theorem apply_then_clear_restores (c : column) (selectedOptions : list value)
  (vm : component) :
  filter_of (filters (c_data vm)) (key_of (field c)) = None ->
  let vm' := fst (onApplyFilters c [] (fst (onApplyFilters c selectedOptions vm))) in
  c_data vm' = c_data vm /\
  filteredResults (c_props vm') (c_data vm') = filteredResults (c_props vm) (c_data vm).
Proof.
  intros Habsent. unfold onApplyFilters. simpl.
  assert (Hfs : vue_delete
                  (if negb (Nat.eqb (List.length selectedOptions) 0)
                   then vue_set (filters (c_data vm)) (key_of (field c)) selectedOptions
                   else vue_delete (filters (c_data vm)) (key_of (field c)))
                  (key_of (field c)) = filters (c_data vm)).
  { destruct (negb (Nat.eqb (List.length selectedOptions) 0)).
    - apply vue_delete_vue_set. exact Habsent.
    - rewrite (vue_delete_absent _ _ Habsent). apply vue_delete_absent. exact Habsent. }
  rewrite Hfs. destruct vm as [p [so sb fs]]. simpl. split; reflexivity.
Qed.

Lemma apply_then_clear_restores_witness :
  let c := {| field := Some "task"; sortable := false; filtrable := true |} in
  let vm := mount {| data := [[("task", VStr "NER")]; [("task", VStr "Text2Text")]];
                     searchOn := None; sortedOrder := "desc";
                     sortedByField := None; querySearch := None;
                     activeFilters := [] |} in
  c_data (fst (onApplyFilters c [] (fst (onApplyFilters c [VStr "NER"] vm)))) = c_data vm.
Proof.
  intros c vm. apply (apply_then_clear_restores c [VStr "NER"] vm). reflexivity.
Defined.

Lemma fold_vue_set_lookup (afs : list active_filter) (fs0 : list (string * list value))
  (k : string) :
  filter_of
    (fold_left (fun fs f => vue_set fs (af_column f) (af_values f))
       (List.filter (fun f => negb (Nat.eqb (List.length (af_values f)) 0)) afs) fs0) k
  = match last_selection afs k with
    | Some selected => Some selected
    | None => filter_of fs0 k
    end.
Proof.
  revert fs0. induction afs as [|f afs IH]; intros fs0; simpl; [reflexivity|].
  destruct (negb (Nat.eqb (List.length (af_values f)) 0)) eqn:Hne; simpl.
  - rewrite IH. destruct (last_selection afs k); [reflexivity|].
    rewrite andb_true_r. destruct (String.eqb (af_column f) k) eqn:Hk.
    + apply String.eqb_eq in Hk. subst k. apply filter_of_vue_set_eq.
    + apply String.eqb_neq in Hk. apply filter_of_vue_set_ne. exact Hk.
  - rewrite IH. destruct (last_selection afs k); [reflexivity|].
    rewrite andb_false_r. reflexivity.
Qed.

(** X4.  On mount the filters object holds, for each column, the
    selection of the last entry of the [activeFilters] prop that names the
    column and selects something; entries with an empty selection are
    ignored, so they do not clear an earlier one.  The sort column and the
    sort order start from the props. *)
Theorem mount_takes_active_filters (p : props) (k : string) :
  filter_of (filters (c_data (mount p))) k = last_selection (activeFilters p) k /\
  sortedBy (c_data (mount p)) = sortedByField p /\
  sortOrder (c_data (mount p)) = sortedOrder p.
Proof.
  split; [|split; reflexivity].
  unfold mount, beforeMount. simpl. rewrite fold_vue_set_lookup.
  destruct (last_selection (activeFilters p) k); reflexivity.
Qed.

Lemma vue_set_ok (fs : list (string * list value)) (k : string) (v : list value) :
  v <> [] -> filters_ok fs -> filters_ok (vue_set fs k v).
Proof.
  intros Hv [Hnd Hne]. split; [apply vue_set_NoDup; exact Hnd|].
  apply List.Forall_forall. intros kv Hin.
  apply vue_set_in in Hin as [->|Hin]; [exact Hv|].
  rewrite List.Forall_forall in Hne. apply Hne. exact Hin.
Qed.

Lemma vue_delete_ok (fs : list (string * list value)) (k : string) :
  filters_ok fs -> filters_ok (vue_delete fs k).
Proof.
  intros [Hnd Hne]. split; [apply vue_delete_NoDup; exact Hnd|].
  apply List.Forall_forall. intros kv Hin. apply filter_In in Hin as [Hin _].
  rewrite List.Forall_forall in Hne. apply Hne. exact Hin.
Qed.

Lemma length_nonzero {A} (l : list A) :
  negb (Nat.eqb (List.length l) 0) = true -> l <> [].
Proof. destruct l; [discriminate | discriminate]. Qed.

Lemma mount_filters_ok (p : props) : filters_ok (filters (c_data (mount p))).
Proof.
  unfold mount, beforeMount. simpl.
  assert (Hgen : forall afs fs0,
            filters_ok fs0 ->
            filters_ok
              (fold_left (fun fs f => vue_set fs (af_column f) (af_values f))
                 (List.filter (fun f => negb (Nat.eqb (List.length (af_values f)) 0)) afs)
                 fs0)).
  { induction afs as [|f afs IH]; intros fs0 Hok; simpl; [exact Hok|].
    destruct (negb (Nat.eqb (List.length (af_values f)) 0)) eqn:Hne; simpl.
    - apply IH. apply vue_set_ok; [apply length_nonzero; exact Hne | exact Hok].
    - apply IH. exact Hok. }
  apply Hgen. split; constructor.
Qed.

Lemma perform_keeps (vm : component) (a : action) :
  filters_ok (filters (c_data vm)) ->
  c_props (perform vm a) = c_props vm /\
  filters_ok (filters (c_data (perform vm a))) /\
  sortOrder (c_data (perform vm a))
    = match a with
      | ClickSort _ => if String.eqb (sortOrder (c_data vm)) "asc" then "desc" else "asc"
      | ApplyFilters _ _ => sortOrder (c_data vm)
      end.
Proof.
  intros Hok. destruct a as [c|c selectedOptions]; simpl.
  - unfold sort. simpl. rewrite strict_eq_of_prop_refl. simpl. auto.
  - split; [reflexivity|]. split; [|reflexivity].
    destruct (negb (Nat.eqb (List.length selectedOptions) 0)) eqn:Hne.
    + apply vue_set_ok; [apply length_nonzero; exact Hne | exact Hok].
    + apply vue_delete_ok. exact Hok.
Qed.

Lemma clicks_snoc (actions : list action) (a : action) :
  clicks (actions ++ [a])
  = match a with
    | ClickSort _ => S (clicks actions)
    | ApplyFilters _ _ => clicks actions
    end.
Proof.
  unfold clicks. rewrite List.filter_app, List.length_app.
  destruct a; simpl; lia.
Qed.

(** X5.  Whatever the user clicks and selects, the props are never
    written, the filters object holds each column at most once and never
    with an empty selection, and, when the [sortedOrder] prop is "asc" or
    "desc", the [sortOrder] data field is the prop after an even number of
    header clicks and the other order after an odd number. *)
Theorem session_invariant (p : props) (actions : list action) :
  c_props (session p actions) = p /\
  List.NoDup (map fst (filters (c_data (session p actions)))) /\
  Forall (fun kf => snd kf <> []) (filters (c_data (session p actions))) /\
  (sortedOrder p = "asc" \/ sortedOrder p = "desc" ->
   sortOrder (c_data (session p actions))
     = if Nat.even (clicks actions) then sortedOrder p
       else if String.eqb (sortedOrder p) "asc" then "desc" else "asc").
Proof.
  unfold session.
  induction actions as [|a actions IH] using rev_ind.
  - simpl. split; [reflexivity|]. destruct (mount_filters_ok p) as [Hnd Hne].
    split; [exact Hnd|]. split; [exact Hne|]. reflexivity.
  - rewrite fold_left_app. simpl.
    destruct IH as (Hp & Hnd & Hne & Hso).
    destruct (perform_keeps (fold_left perform actions (mount p)) a (conj Hnd Hne))
      as (Hp' & [Hnd' Hne'] & Hso').
    split; [congruence|]. split; [exact Hnd'|]. split; [exact Hne'|].
    intros Hprop. rewrite Hso', (Hso Hprop), clicks_snoc.
    destruct a as [c|c sel]; [|reflexivity].
    rewrite Nat.even_succ, <- Nat.negb_even.
    destruct (Nat.even (clicks actions)); simpl;
      destruct Hprop as [->| ->]; reflexivity.
Qed.

Lemma session_invariant_witness :
  let p := {| data := []; searchOn := None; sortedOrder := "desc";
              sortedByField := None; querySearch := None; activeFilters := [] |} in
  let name := {| field := Some "name"; sortable := true; filtrable := false |} in
  let task := {| field := Some "task"; sortable := false; filtrable := true |} in
  sortOrder (c_data (session p [ClickSort name; ApplyFilters task [VStr "NER"];
                                ClickSort name; ClickSort name])) = "asc".
Proof.
  intros p name task.
  destruct (session_invariant p [ClickSort name; ApplyFilters task [VStr "NER"];
                                 ClickSort name; ClickSort name])
    as (_ & _ & _ & Hso).
  rewrite Hso; [reflexivity | right; reflexivity].
Defined.

Lemma filter_all {A} (l : list A) : List.filter (fun _ => true) l = l.
Proof. induction l as [|x l IH]; simpl; [reflexivity | f_equal; exact IH]. Qed.

Lemma matchFilters_values (st : state) (it : item) :
  (forall kf, In kf (filters st) -> isObject (get it (fst kf)) = false) ->
  matchFilters st it
    = Ok (forallb (fun kf : string * list value =>
                     array_includes (snd kf) (get it (fst kf))) (filters st)).
Proof.
  unfold matchFilters. induction (filters st) as [|[key selected] fs IH]; intros Hprim;
    simpl; [reflexivity|].
  pose proof (Hprim (key, selected) (or_introl eq_refl)) as Hkey. simpl in Hkey.
  rewrite Hkey. simpl.
  destruct (array_includes selected (get it key)); simpl; [|reflexivity].
  apply IH. intros kf Hin. apply Hprim. right. exact Hin.
Qed.

(** X6.  Without a search, and on rows whose filtered columns do not hold
    plain objects, the table shows the rows that offer, in every filtered
    column, one of the selected options: a row is among the results iff it
    is in the data and its value in each filtered column is strictly equal
    to some option selected for that column. *)
Theorem filters_select_by_value (p : props) (st : state) :
  querySearch p = None ->
  (forall it kf, In it (data p) -> In kf (filters st) ->
     isObject (get it (fst kf)) = false) ->
  exists r,
    filteredResults p st = Ok r /\
    forall it,
      In it r <->
      In it (data p) /\
      forall k selected, In (k, selected) (filters st) ->
        exists option, In option selected /\ strict_eq option (get it k) = true.
Proof.
  intros Hq Hprim.
  set (keep := fun it : item =>
         forallb (fun kf : string * list value =>
                    array_includes (snd kf) (get it (fst kf))) (filters st)).
  exists (array_sort (itemComparator p st) (List.filter keep (data p))). split.
  - unfold filteredResults.
    rewrite (array_filter_pure (matchSearch p) (fun _ => true))
      by (intros; unfold matchSearch; rewrite Hq; reflexivity).
    rewrite filter_all. simpl.
    rewrite (array_filter_pure (matchFilters st) keep).
    + reflexivity.
    + intros it Hin. apply matchFilters_values. intros kf Hkf. apply (Hprim it kf Hin Hkf).
  - intros it.
    assert (Hsort : In it (array_sort (itemComparator p st) (List.filter keep (data p)))
                    <-> In it (List.filter keep (data p))).
    { split; apply Permutation_in;
        [|symmetry]; apply array_sort_perm. }
    rewrite Hsort, filter_In. unfold keep. rewrite forallb_forall.
    split; intros [Hin Hall]; (split; [exact Hin|]).
    + intros k selected Hk. specialize (Hall (k, selected) Hk). simpl in Hall.
      unfold array_includes in Hall. apply existsb_exists in Hall. exact Hall.
    + intros [k selected] Hk. simpl. unfold array_includes. apply existsb_exists.
      apply (Hall k selected Hk).
Qed.

Lemma filters_select_by_value_witness :
  let rows := [ [("name", VStr "news"); ("task", VStr "NER")];
                [("name", VStr "imdb"); ("task", VStr "Text2Text")] ] in
  let p := {| data := rows; searchOn := None; sortedOrder := "desc";
              sortedByField := None; querySearch := None;
              activeFilters := [{| af_column := "task"; af_values := [VStr "NER"] |}] |} in
  exists r,
    filteredResults p (c_data (mount p)) = Ok r /\
    (In [("name", VStr "news"); ("task", VStr "NER")] r) /\
    ~ In [("name", VStr "imdb"); ("task", VStr "Text2Text")] r.
Proof.
  intros rows p.
  destruct (filters_select_by_value p (c_data (mount p))) as (r & Hr & Hin).
  - reflexivity.
  - intros it kf [<-|[<-|[]]] [<-|[]]; reflexivity.
  - exists r. split; [exact Hr|]. split.
    + apply Hin. split; [left; reflexivity|].
      intros k selected [[= <- <-]|[]]. exists (VStr "NER"). split; [left|]; reflexivity.
    + intros H. apply Hin in H as [_ H].
      destruct (H "task" [VStr "NER"] (or_introl eq_refl)) as (o & [<-|[]] & Ho).
      discriminate Ho.
Defined.









Lemma strict_eq_bool (v : value) (b : bool) :
  strict_eq v (VBool b) = true <-> v = VBool b.
Proof.
  destruct v as [| |b'| | | |]; simpl; try (split; discriminate).
  rewrite Bool.eqb_true_iff. split; congruence.
Qed.

(** X9.  An action is offered unless its [hide] is a Boolean equal to
    the [hideButton] prop.  So every action is offered under one of the two
    values of the prop, an action whose [hide] is not a Boolean (absent,
    for one) under both, and an action with [hide: false] is the one that
    the default [hideButton = false] takes away. *)
Theorem filterActions_offers (actions : list object) (a : object) (hideButton : bool) :
  (In a (filterActions actions hideButton) <->
     In a actions /\ get a "hide" <> VBool hideButton) /\
  (In a actions ->
     In a (filterActions actions true) \/ In a (filterActions actions false)) /\
  (In a actions -> (forall b, get a "hide" <> VBool b) ->
     In a (filterActions actions true) /\ In a (filterActions actions false)) /\
  (get a "hide" = VBool false -> ~ In a (filterActions actions false)).
Proof.
  assert (Hiff : forall b,
            In a (filterActions actions b) <-> In a actions /\ get a "hide" <> VBool b).
  { intros b. unfold filterActions. rewrite filter_In, negb_true_iff.
    split; intros [Hin H]; (split; [exact Hin|]).
    - intros Heq. apply strict_eq_bool in Heq. congruence.
    - destruct (strict_eq (get a "hide") (VBool b)) eqn:Heq; [|reflexivity].
      apply strict_eq_bool in Heq. contradiction. }
  split; [apply Hiff|]. split; [|split].
  - intros Hin. rewrite !Hiff.
    destruct (get a "hide") as [| |[|]| | | |]; try (left; split; [exact Hin | discriminate]).
    right. split; [exact Hin | discriminate].
  - intros Hin Hnb. rewrite !Hiff. split; (split; [exact Hin | apply Hnb]).
  - intros Hhide Hin. apply Hiff in Hin as [_ Hne]. contradiction.
Qed.

Lemma filterActions_offers_witness :
  let delete := [("name", VStr "delete"); ("hide", VBool false)] in
  let copy := [("name", VStr "copy")] in
  filterActions [delete; copy] false = [copy] /\
  (In copy (filterActions [delete; copy] true) /\ In copy (filterActions [delete; copy] false)) /\
  ~ In delete (filterActions [delete; copy] false).
Proof.
  intros delete copy. split; [reflexivity|]. split.
  - apply (filterActions_offers [delete; copy] copy false).
    + right. left. reflexivity.
    + intros b. discriminate.
  - apply (filterActions_offers [delete; copy] delete false). reflexivity.
Defined.

End TableMethodsFacts.

(** ** The prefix-star directive *)

Section PrefixStarFacts.
Import JS PrefixStar.

Lemma update_star_binding (childNodes : list node) (show : bool) (tooltip : string) :
  update childNodes (star_binding true show tooltip)
  = if show then
      Ok (if Nat.eqb (List.length childNodes) 2 then childNodes
          else emojiWrapper (VStr tooltip) :: childNodes)
    else Ok (sparkIcon_remove childNodes).
Proof.
  unfold update, sparkIcon_add. simpl.
  destruct show; simpl; [|reflexivity].
  destruct (Nat.eqb (List.length childNodes) 2); reflexivity.
Qed.

Lemma updates_single_child (c : node) (shows : list (bool * string)) (start : list node) :
  start = [c] \/ (exists t, start = [emojiWrapper (VStr t); c]) ->
  exists childNodes,
    updates start (map (fun st => star_binding true (fst st) (snd st)) shows)
      = Ok childNodes /\
    (childNodes = [c] \/ exists t, childNodes = [emojiWrapper (VStr t); c]) /\
    (shows <> [] ->
       if List.last (map fst shows) false
       then exists t, childNodes = [emojiWrapper (VStr t); c]
       else childNodes = [c]).
Proof.
  revert start. induction shows as [|[show tooltip] shows IH]; intros start Hstart.
  - exists start. split; [reflexivity|]. split; [exact Hstart | congruence].
  - cbn [map updates fst snd]. rewrite update_star_binding.
    set (next := if show
                 then (if Nat.eqb (List.length start) 2 then start
                       else emojiWrapper (VStr tooltip) :: start)
                 else sparkIcon_remove start).
    assert (Hnext : (if show then Ok (if Nat.eqb (List.length start) 2 then start
                                      else emojiWrapper (VStr tooltip) :: start)
                     else Ok (sparkIcon_remove start)) = Ok next)
      by (unfold next; destruct show; reflexivity).
    rewrite Hnext. cbn [mbind result_bind].
    assert (Hinv : (if show then exists t, next = [emojiWrapper (VStr t); c]
                    else next = [c])).
    { unfold next. destruct show.
      - destruct Hstart as [->|[t ->]]; simpl; eauto.
      - destruct Hstart as [->|[t ->]]; reflexivity. }
    assert (Hnext' : next = [c] \/ exists t, next = [emojiWrapper (VStr t); c])
      by (destruct show; [right | left]; exact Hinv).
    destruct (IH next Hnext') as (childNodes & Hrun & Hshape & Hlast).
    exists childNodes. split; [exact Hrun|]. split; [exact Hshape|]. intros _.
    destruct shows as [|s shows'].
    + simpl in Hrun. injection Hrun as <-. simpl. exact Hinv.
    + change (List.last (map fst ((show, tooltip) :: s :: shows')) false)
        with (List.last (map fst (s :: shows')) false).
      apply Hlast. discriminate.
Qed.

(** X10.  On a host with one child node, however often [update] runs
    with an enabled binding, the host holds that child alone or the star
    wrapper followed by that child, never two stars; and after the last
    update it holds the star iff that update asked to show it. *)
Theorem star_follows_last_update (c : node) (shows : list (bool * string)) :
  exists childNodes,
    updates [c] (map (fun st => star_binding true (fst st) (snd st)) shows)
      = Ok childNodes /\
    (childNodes = [c] \/ exists t, childNodes = [emojiWrapper (VStr t); c]) /\
    (List.last (map fst shows) false = true ->
       exists t, childNodes = [emojiWrapper (VStr t); c]) /\
    (List.last (map fst shows) false = false -> childNodes = [c]).
Proof.
  destruct (updates_single_child c shows [c] (or_introl eq_refl))
    as (childNodes & Hrun & Hshape & Hlast).
  exists childNodes. split; [exact Hrun|]. split; [exact Hshape|].
  destruct shows as [|s shows].
  - simpl in Hrun. injection Hrun as <-. split; [discriminate | reflexivity].
  - specialize (Hlast ltac:(discriminate)).
    destruct (List.last (map fst (s :: shows)) false);
      split; intros H; try discriminate H; exact Hlast.
Qed.

Lemma star_follows_last_update_witness :
  exists childNodes,
    updates [TextNode "Suggestion"]
      [star_binding true true "from the model"; star_binding true true "from the model";
       star_binding true false "from the model"] = Ok childNodes /\
    childNodes = [TextNode "Suggestion"].
Proof.
  destruct (star_follows_last_update (TextNode "Suggestion")
              [(true, "from the model"); (true, "from the model");
               (false, "from the model")])
    as (childNodes & Hrun & _ & _ & Hoff).
  exists childNodes. split; [exact Hrun | apply Hoff; reflexivity].
Defined.

(** X11.  A binding whose value is undefined or null makes both hooks
    throw a [TypeError]; a binding that is missing, or whose [enabled] is
    not truthy, makes both hooks leave the host alone, whatever [show]
    says; and [bind] never removes a node. *)
Theorem hooks_need_a_value (childNodes : list node) (binding : option value) :
  (binding = Some VUndefined \/ binding = Some VNull ->
     (exists msg, update childNodes binding = Raise (TypeError msg)) /\
     (exists msg, bind childNodes binding = Raise (TypeError msg))) /\
  (forall enabled,
     binding_value binding "enabled" = Ok enabled -> truthy enabled = false ->
     update childNodes binding = Ok childNodes /\ bind childNodes binding = Ok childNodes) /\
  (binding = None ->
     update childNodes binding = Ok childNodes /\ bind childNodes binding = Ok childNodes) /\
  (forall after, bind childNodes binding = Ok after ->
     after = childNodes \/ exists tooltip, after = emojiWrapper tooltip :: childNodes).
Proof.
  split; [|split; [|split]].
  - intros [->| ->]; split; eexists; reflexivity.
  - intros enabled He Hf. unfold update, bind. rewrite He. simpl. rewrite Hf.
    split; reflexivity.
  - intros ->. split; reflexivity.
  - intros after. unfold bind, sparkIcon_add.
    destruct (binding_value binding "enabled") as [enabled|e]; simpl; [|discriminate].
    destruct (truthy enabled); simpl; [|intros [= <-]; left; reflexivity].
    destruct (binding_value binding "show") as [show|e]; simpl; [|discriminate].
    destruct (truthy show); [|intros [= <-]; left; reflexivity].
    destruct (Nat.eqb (List.length childNodes) 2); [intros [= <-]; left; reflexivity|].
    destruct (binding_value binding "tooltip") as [tooltip|e]; simpl; [|discriminate].
    intros [= <-]. right. eauto.
Qed.

Lemma hooks_need_a_value_witness :
  (exists msg, update [TextNode "Suggestion"] (Some VUndefined) = Raise (TypeError msg)) /\
  update [TextNode "Suggestion"] (star_binding false true "from the model")
    = Ok [TextNode "Suggestion"] /\
  bind [TextNode "Suggestion"] None = Ok [TextNode "Suggestion"].
Proof.
  split; [|split].
  - apply (hooks_need_a_value [TextNode "Suggestion"] (Some VUndefined)).
    left. reflexivity.
  - apply (hooks_need_a_value [TextNode "Suggestion"]
             (star_binding false true "from the model") ) with (enabled := VBool false);
      reflexivity.
  - apply (hooks_need_a_value [TextNode "Suggestion"] None). reflexivity.
Defined.

(** X12.  [sparkIcon.add] counts the child nodes instead of looking for
    the star.  Adding twice is the same as adding once exactly on hosts
    with one or two child nodes (an empty host, or one with three or more,
    gets a second star); removing after adding gives back the host exactly
    when it had one child node; and on a host with two child nodes [add]
    adds nothing, while [remove] takes away its first child, star or
    not. *)
Theorem add_counts_child_nodes (childNodes : list node) (binding : option value)
  (tooltip : value) :
  binding_value binding "tooltip" = Ok tooltip ->
  ((sparkIcon_add childNodes binding ≫= fun added => sparkIcon_add added binding)
     = sparkIcon_add childNodes binding
   <-> List.length childNodes = 1%nat \/ List.length childNodes = 2%nat) /\
  ((sparkIcon_add childNodes binding ≫= fun added => Ok (sparkIcon_remove added))
     = Ok childNodes
   <-> List.length childNodes = 1%nat) /\
  (forall a b, childNodes = [a; b] ->
     sparkIcon_add childNodes binding = Ok [a; b] /\ sparkIcon_remove childNodes = [b]).
Proof.
  intros Ht. unfold sparkIcon_add, sparkIcon_remove. rewrite Ht.
  split; [|split].
  - destruct childNodes as [|a [|b [|c rest]]]; simpl; rewrite ?Ht; simpl.
    + split; [|intros [H|H]; discriminate H].
      intros H.
      apply (f_equal (fun r => match r with
                               | Ok l => List.length l
                               | Raise _ => 0%nat
                               end)) in H.
      simpl in H. lia.
    + split; [auto | reflexivity].
    + split; [auto | reflexivity].
    + split; [|intros [H|H]; discriminate H].
      intros H.
      apply (f_equal (fun r => match r with
                               | Ok l => List.length l
                               | Raise _ => 0%nat
                               end)) in H.
      simpl in H. lia.
  - destruct childNodes as [|a [|b [|c rest]]]; simpl.
    + split; [intros H; discriminate H | intros H; discriminate H].
    + split; [auto | reflexivity].
    + split; [|intros H; discriminate H].
      intros H.
      apply (f_equal (fun r => match r with
                               | Ok l => List.length l
                               | Raise _ => 0%nat
                               end)) in H.
      simpl in H. lia.
    + split; [|intros H; discriminate H].
      intros H.
      apply (f_equal (fun r => match r with
                               | Ok l => List.length l
                               | Raise _ => 0%nat
                               end)) in H.
      simpl in H. lia.
  - intros a b ->. split; reflexivity.
Qed.

Lemma add_counts_child_nodes_witness :
  let icon := ElementNode "svg" [] [] [] in
  (sparkIcon_add [TextNode "Suggestion"] (star_binding true true "from the model")
     ≫= fun added => Ok (sparkIcon_remove added)) = Ok [TextNode "Suggestion"] /\
  sparkIcon_remove [icon; TextNode "Suggestion"] = [TextNode "Suggestion"].
Proof.
  intros icon. split.
  - apply (add_counts_child_nodes [TextNode "Suggestion"]
             (star_binding true true "from the model") (VStr "from the model"));
      reflexivity.
  - destruct (add_counts_child_nodes [icon; TextNode "Suggestion"]
                (star_binding true true "from the model") (VStr "from the model")
                eq_refl) as (_ & _ & Htwo).
    apply (Htwo icon (TextNode "Suggestion") eq_refl).
Defined.

End PrefixStarFacts.

(** ** The first training examples *)

Section TrainingDataFacts.
Import Py TrainingData.

Lemma texts_of_cons_eq (rec : record) (train_rg : list record) (label : string) :
  annotation rec = Some label ->
  texts_of label (rec :: train_rg) = text rec :: texts_of label train_rg.
Proof.
  intros H. unfold texts_of. simpl. rewrite H, String.eqb_refl. reflexivity.
Qed.

Lemma texts_of_cons_ne (rec : record) (train_rg : list record) (label l : string) :
  annotation rec = Some label -> label <> l ->
  texts_of l (rec :: train_rg) = texts_of l train_rg.
Proof.
  intros H Hne. unfold texts_of. simpl. rewrite H.
  apply String.eqb_neq in Hne. rewrite Hne. reflexivity.
Qed.

(** One pass appends to each label the texts of its records, in order,
    for as long as the label has fewer than [n_samples_per_class]. *)
Lemma enumerate_pass_spec (train_rg : list record) (data : gmap string (list string)) :
  labelled_in data train_rg ->
  exists data',
    enumerate_pass train_rg data = (Ok tt, data') /\
    dom data' = dom data /\
    forall l texts, data !! l = Some texts ->
      data' !! l
      = Some (texts ++ firstn (n_samples_per_class - List.length texts)
                              (texts_of l train_rg)).
Proof.
  unfold labelled_in. revert data.
  induction train_rg as [|rec train_rg IH]; intros data Hvalid.
  - exists data. split; [reflexivity|]. split; [reflexivity|].
    intros l texts Hl. unfold texts_of. simpl. rewrite firstn_nil, List.app_nil_r.
    exact Hl.
  - inversion Hvalid as [|? ? Hhead Hrest]; subst.
    destruct Hhead as (label & Hann & Hdom).
    apply elem_of_dom in Hdom as [ta Hta].
    cbn [enumerate_pass]. rewrite Hann. unfold py_getitem. rewrite Hta.
    destruct (List.length ta <? n_samples_per_class)%nat eqn:Hlen.
    + apply Nat.ltb_lt in Hlen.
      assert (Hdom1 : dom (<[label := ta ++ [text rec]]> data) = dom data).
      { rewrite dom_insert_L. apply subseteq_union_1_L, singleton_subseteq_l.
        apply elem_of_dom. eauto. }
      destruct (IH (<[label := ta ++ [text rec]]> data)) as (data' & Hrun & Hdom' & Hspec).
      { rewrite Hdom1. exact Hrest. }
      exists data'. split; [exact Hrun|]. split; [congruence|].
      intros l texts Hl. destruct (decide (label = l)) as [<-|Hne].
      * rewrite Hta in Hl. injection Hl as <-.
        rewrite (Hspec label (ta ++ [text rec])) by apply lookup_insert_eq.
        rewrite (texts_of_cons_eq _ _ _ Hann). f_equal.
        rewrite List.length_app. simpl.
        replace (n_samples_per_class - List.length ta)%nat
          with (S (n_samples_per_class - (List.length ta + 1)))%nat by lia.
        simpl. rewrite <- List.app_assoc. reflexivity.
      * rewrite (Hspec l texts) by (rewrite lookup_insert_ne; assumption).
        rewrite (texts_of_cons_ne _ _ _ _ Hann Hne). reflexivity.
    + apply Nat.ltb_ge in Hlen.
      destruct (IH data Hrest) as (data' & Hrun & Hdom' & Hspec).
      exists data'. split; [exact Hrun|]. split; [exact Hdom'|].
      intros l texts Hl. rewrite (Hspec l texts Hl).
      destruct (decide (label = l)) as [<-|Hne].
      * rewrite Hta in Hl. injection Hl as <-.
        replace (n_samples_per_class - List.length ta)%nat with 0%nat by lia.
        reflexivity.
      * rewrite (texts_of_cons_ne _ _ _ _ Hann Hne). reflexivity.
Qed.

Lemma all_full_spec (data : gmap string (list string)) :
  all_full data = true <->
  forall l texts, data !! l = Some texts -> List.length texts = n_samples_per_class.
Proof.
  unfold all_full. rewrite forallb_forall. split.
  - intros H l texts Hl. specialize (H (l, texts)). simpl in H.
    apply Nat.eqb_eq, H. apply list_elem_of_In, elem_of_map_to_list. exact Hl.
  - intros H [l texts] Hin. simpl. apply Nat.eqb_eq. apply (H l).
    apply elem_of_map_to_list, list_elem_of_In. exact Hin.
Qed.

Lemma collect_step (fuel : nat) (train_rg : list record)
  (s : machine (gmap string (list string))) :
  py_while (S fuel) incomplete (pass train_rg) s
  = if all_full (world s) then (Returned, s)
    else match enumerate_pass train_rg (world s) with
         | (Ok _, data) =>
             py_while fuel incomplete (pass train_rg)
               {| world := data; trace := trace s |}
         | (Raise e, data) =>
             (Failed e, log (Raised e) {| world := data; trace := trace s |})
         end.
Proof.
  cbn [py_while]. unfold incomplete at 1.
  destruct (all_full (world s)); simpl; [reflexivity|].
  unfold pass at 1.
  destruct (enumerate_pass train_rg (world s)) as [[[]|e] data]; reflexivity.
Qed.

Lemma concat_replicate_snoc {A} (j : nat) (l : list A) :
  concat (replicate (S j) l) = concat (replicate j l) ++ l.
Proof.
  induction j as [|j IH]; simpl; [rewrite List.app_nil_r; reflexivity|].
  simpl in IH.
  transitivity (l ++ (concat (replicate j l) ++ l));
    [f_equal; exact IH | apply List.app_assoc].
Qed.

(** Appending what still fits is taking the first [n] of the whole. *)
Lemma firstn_app_fill {A} (n : nat) (x t : list A) :
  firstn n x ++ firstn (n - List.length (firstn n x)) t = firstn n (x ++ t).
Proof.
  rewrite List.firstn_app, List.length_firstn. f_equal.
  destruct (Nat.le_gt_cases n (List.length x)) as [H|H].
  - rewrite Nat.min_l by exact H.
    replace (n - n)%nat with 0%nat by lia.
    replace (n - List.length x)%nat with 0%nat by lia. reflexivity.
  - rewrite Nat.min_r by lia. reflexivity.
Qed.

Lemma collect_loop (train_rg : list record) (data0 : gmap string (list string))
  (fuel passes : nat) (s : machine (gmap string (list string))) :
  labelled_in data0 train_rg ->
  (forall l, l ∈ dom data0 -> texts_of l train_rg <> []) ->
  dom (world s) = dom data0 ->
  (forall l texts0, data0 !! l = Some texts0 ->
     world s !! l
     = Some (firstn n_samples_per_class
               (texts0 ++ concat (replicate passes (texts_of l train_rg))))) ->
  (forall l texts, world s !! l = Some texts ->
     (n_samples_per_class - fuel <= List.length texts)%nat) ->
  exists passes' s',
    py_while (S fuel) incomplete (pass train_rg) s = (Returned, s') /\
    (passes' <= passes + fuel)%nat /\
    trace s' = trace s /\
    dom (world s') = dom data0 /\
    forall l texts0, data0 !! l = Some texts0 ->
      world s' !! l
      = Some (firstn n_samples_per_class
                (texts0 ++ concat (replicate passes' (texts_of l train_rg)))) /\
      List.length (firstn n_samples_per_class
                     (texts0 ++ concat (replicate passes' (texts_of l train_rg))))
      = n_samples_per_class.
Proof.
  intros Hvalid Hsome. revert passes s.
  induction fuel as [|fuel IH]; intros passes s Hdom Hinv Hlow; rewrite collect_step.
  - assert (Hfull : all_full (world s) = true).
    { apply all_full_spec. intros l texts Hl.
      pose proof (Hlow l texts Hl) as Hge.
      assert (Hl0 : l ∈ dom data0) by (rewrite <- Hdom; apply elem_of_dom; eauto).
      apply elem_of_dom in Hl0 as [texts0 Hl0].
      rewrite (Hinv l texts0 Hl0) in Hl. injection Hl as <-.
      rewrite List.length_firstn in Hge |- *. lia. }
    rewrite Hfull. exists passes, s. split; [reflexivity|]. split; [lia|].
    split; [reflexivity|]. split; [exact Hdom|].
    intros l texts0 Hl0. split; [apply Hinv; exact Hl0|].
    apply (proj1 (all_full_spec (world s)) Hfull l). apply Hinv. exact Hl0.
  - destruct (all_full (world s)) eqn:Hfull.
    + exists passes, s. split; [reflexivity|]. split; [lia|].
      split; [reflexivity|]. split; [exact Hdom|].
      intros l texts0 Hl0. split; [apply Hinv; exact Hl0|].
      apply (proj1 (all_full_spec (world s)) Hfull l). apply Hinv. exact Hl0.
    + destruct (enumerate_pass_spec train_rg (world s)) as (data' & Hrun & Hdom' & Hspec).
      { unfold labelled_in. rewrite Hdom. exact Hvalid. }
      rewrite Hrun.
      assert (Hinv' : forall l texts0, data0 !! l = Some texts0 ->
                data' !! l
                = Some (firstn n_samples_per_class
                          (texts0 ++ concat (replicate (S passes) (texts_of l train_rg))))).
      { intros l texts0 Hl0. rewrite (Hspec l _ (Hinv l texts0 Hl0)).
        rewrite concat_replicate_snoc, List.app_assoc, firstn_app_fill. reflexivity. }
      destruct (IH (S passes) {| world := data'; trace := trace s |})
        as (passes' & s' & Hloop & Hle & Htrace & Hdomf & Hfinal).
      * simpl. congruence.
      * exact Hinv'.
      * simpl. intros l texts Hl.
        assert (Hl0 : l ∈ dom data0)
          by (rewrite <- Hdom, <- Hdom'; apply elem_of_dom; eauto).
        pose proof (Hsome l Hl0) as Hne.
        apply elem_of_dom in Hl0 as [texts0 Hl0].
        pose proof (Hinv l texts0 Hl0) as Hcur.
        rewrite (Hspec l _ Hcur) in Hl. injection Hl as <-.
        pose proof (Hlow l _ Hcur) as Hge.
        destruct (texts_of l train_rg) as [|t ts] eqn:Hts; [congruence|].
        remember (firstn n_samples_per_class
                    (texts0 ++ concat (replicate passes (t :: ts)))) as cur.
        rewrite List.length_app, List.length_firstn. simpl List.length.
        lia.
      * exists passes', s'. split; [exact Hloop|]. split; [lia|].
        split; [exact Htrace|]. split; [exact Hdomf | exact Hfinal].
Qed.

(** X13.  When every validated record carries one of the labels of
    [data], no label holds more than [n_samples_per_class] texts, and every
    label has at least one validated record, the cell terminates within
    [n_samples_per_class] passes over the records, and leaves under each
    label exactly [n_samples_per_class] texts: the ones it held, then the
    texts of its records in order, taken again from the start on every
    further pass (so a label with fewer records gets its texts
    repeated). *)
Theorem collect_training_data_completes (train_rg : list record)
  (data : gmap string (list string)) :
  labelled_in data train_rg ->
  (forall l texts, data !! l = Some texts ->
     (List.length texts <= n_samples_per_class)%nat) ->
  (forall l, l ∈ dom data -> texts_of l train_rg <> []) ->
  exists passes s',
    collect_training_data (S n_samples_per_class) train_rg data = (Returned, s') /\
    (passes <= n_samples_per_class)%nat /\
    dom (world s') = dom data /\
    forall l texts, data !! l = Some texts ->
      world s' !! l
      = Some (firstn n_samples_per_class
                (texts ++ concat (replicate passes (texts_of l train_rg)))) /\
      List.length (firstn n_samples_per_class
                     (texts ++ concat (replicate passes (texts_of l train_rg))))
      = n_samples_per_class.
Proof.
  intros Hvalid Hmax Hsome. unfold collect_training_data.
  destruct (collect_loop train_rg data n_samples_per_class 0
              {| world := data; trace := [] |} Hvalid Hsome)
    as (passes & s' & Hloop & Hle & _ & Hdom & Hfinal).
  - reflexivity.
  - simpl. intros l texts Hl. rewrite Hl, List.app_nil_r.
    rewrite List.firstn_all2 by (apply (Hmax l); exact Hl). reflexivity.
  - simpl. intros l texts Hl. lia.
  - exists passes, s'. split; [exact Hloop|]. split; [lia|]. split; [exact Hdom|].
    exact Hfinal.
Qed.

Lemma collect_training_data_completes_witness :
  let rec_of label t := {| text := t; prediction := None; annotation := Some label;
                           status := "Validated"; metadata := ∅ |} in
  exists passes s',
    collect_training_data (S n_samples_per_class)
      [rec_of "Sports" "Late goal"; rec_of "Sports" "Cup final"]
      {[ "Sports" := ["Derby day"] ]} = (Returned, s') /\
    (passes <= n_samples_per_class)%nat /\
    List.length
      (firstn n_samples_per_class
         (["Derby day"] ++ concat (replicate passes ["Late goal"; "Cup final"])))
    = n_samples_per_class.
Proof.
  intros rec_of.
  destruct (collect_training_data_completes
              [rec_of "Sports" "Late goal"; rec_of "Sports" "Cup final"]
              {[ "Sports" := ["Derby day"] ]})
    as (passes & s' & Hrun & Hle & _ & Hfinal).
  - repeat constructor; exists "Sports"; (split; [reflexivity|]);
      rewrite dom_singleton_L; apply elem_of_singleton; reflexivity.
  - intros l texts Hl. apply lookup_singleton_Some in Hl as [_ <-].
    unfold n_samples_per_class. simpl. lia.
  - intros l Hl. rewrite dom_singleton_L in Hl. apply elem_of_singleton in Hl.
    subst l. discriminate.
  - exists passes, s'. split; [exact Hrun|]. split; [exact Hle|].
    apply (Hfinal "Sports" ["Derby day"]). apply lookup_singleton_eq.
Defined.

(** X14.  The cell never ends when some label of [data] can never
    reach [n_samples_per_class] texts: it holds more already, or fewer and
    no validated record carries it.  However long the loop runs, it is
    still running, and that label holds what it held. *)
Theorem collect_training_data_hangs (train_rg : list record)
  (data : gmap string (list string)) (l : string) (texts : list string) :
  labelled_in data train_rg ->
  data !! l = Some texts ->
  List.length texts <> n_samples_per_class ->
  (n_samples_per_class < List.length texts)%nat \/ texts_of l train_rg = [] ->
  forall fuel,
    fst (collect_training_data fuel train_rg data) = Unfinished /\
    world (snd (collect_training_data fuel train_rg data)) !! l = Some texts.
Proof.
  intros Hvalid Hl Hlen Hstuck fuel. unfold collect_training_data.
  assert (Hgen : forall s : machine (gmap string (list string)),
            dom (world s) = dom data -> world s !! l = Some texts ->
            fst (py_while fuel incomplete (pass train_rg) s) = Unfinished /\
            world (snd (py_while fuel incomplete (pass train_rg) s)) !! l = Some texts).
  { induction fuel as [|fuel IH]; intros s Hdom Hcur; [split; [reflexivity | exact Hcur]|].
    rewrite collect_step.
    destruct (all_full (world s)) eqn:Hfull.
    { pose proof (proj1 (all_full_spec (world s)) Hfull l texts Hcur). contradiction. }
    destruct (enumerate_pass_spec train_rg (world s)) as (data' & Hrun & Hdom' & Hspec).
    { unfold labelled_in. rewrite Hdom. exact Hvalid. }
    rewrite Hrun. apply IH; simpl; [congruence|].
    rewrite (Hspec l texts Hcur).
    destruct Hstuck as [Hmore| ->].
    - replace (n_samples_per_class - List.length texts)%nat with 0%nat by lia.
      simpl. rewrite List.app_nil_r. reflexivity.
    - rewrite firstn_nil, List.app_nil_r. reflexivity. }
  apply Hgen; [reflexivity | exact Hl].
Qed.

Lemma collect_training_data_hangs_witness :
  let rec_of label t := {| text := t; prediction := None; annotation := Some label;
                           status := "Validated"; metadata := ∅ |} in
  fst (collect_training_data 100 [rec_of "Sports" "Late goal"]
         {[ "Sports" := []; "World" := [] ]}) = Unfinished.
Proof.
  intros rec_of.
  apply (collect_training_data_hangs [rec_of "Sports" "Late goal"]
           {[ "Sports" := []; "World" := [] ]} "World" []).
  - repeat constructor. exists "Sports". split; [reflexivity|].
    apply elem_of_dom. eexists. reflexivity.
  - reflexivity.
  - discriminate.
  - right. reflexivity.
Defined.

Lemma enumerate_pass_app (pre post : list record) (data : gmap string (list string)) :
  enumerate_pass (pre ++ post) data
  = match enumerate_pass pre data with
    | (Ok _, data') => enumerate_pass post data'
    | failed => failed
    end.
Proof.
  revert data. induction pre as [|rec pre IH]; intros data; [reflexivity|].
  cbn [List.app enumerate_pass].
  destruct (annotation rec) as [label|]; [|reflexivity].
  destruct (py_getitem data label) as [texts|e]; [|reflexivity].
  destruct (List.length texts <? n_samples_per_class)%nat; apply IH.
Qed.

(** X15.  A record whose annotation is missing, or is not a key of
    [data], makes the cell fail with a [KeyError] on its first pass, once
    the records before it have been taken in; unless [data] is complete
    from the start, in which case the cell ends at once, records unread and
    [data] untouched. *)
Theorem collect_training_data_unknown_label (pre post : list record) (rec : record)
  (data : gmap string (list string)) (fuel : nat) :
  labelled_in data pre ->
  (annotation rec = None \/
   exists label, annotation rec = Some label /\ data !! label = None) ->
  (all_full data = false ->
     fst (collect_training_data (S fuel) (pre ++ rec :: post) data)
       = Failed (KeyError (default "None" (annotation rec)))) /\
  (all_full data = true ->
     collect_training_data (S fuel) (pre ++ rec :: post) data
       = (Returned, {| world := data; trace := [] |})).
Proof.
  intros Hvalid Hbad. unfold collect_training_data. rewrite collect_step. simpl.
  split; intros ->; [|reflexivity].
  rewrite enumerate_pass_app.
  destruct (enumerate_pass_spec pre data Hvalid) as (data' & -> & Hdom & _).
  cbn [enumerate_pass].
  destruct Hbad as [->|(label & -> & Hnone)]; [reflexivity|].
  unfold py_getitem.
  assert (Hnone' : data' !! label = None).
  { apply not_elem_of_dom. rewrite Hdom. apply not_elem_of_dom. exact Hnone. }
  rewrite Hnone'. reflexivity.
Qed.

Lemma collect_training_data_unknown_label_witness :
  let rec_of label t := {| text := t; prediction := None; annotation := Some label;
                           status := "Validated"; metadata := ∅ |} in
  fst (collect_training_data 3
         ([rec_of "Sports" "Late goal"] ++ rec_of "Weather" "Rain ahead" :: [])
         {[ "Sports" := [] ]}) = Failed (KeyError "Weather").
Proof.
  intros rec_of.
  apply (collect_training_data_unknown_label [rec_of "Sports" "Late goal"] []
           (rec_of "Weather" "Rain ahead") {[ "Sports" := [] ]} 2).
  - repeat constructor. exists "Sports". split; [reflexivity|].
    rewrite dom_singleton_L. apply elem_of_singleton. reflexivity.
  - right. exists "Weather". split; reflexivity.
  - reflexivity.
Defined.

End TrainingDataFacts.

(** ** The listener's body *)

Section LoopBodyFacts.
Import Py ActiveLearning TrainingData LoopBody.

Lemma validated_cons_true (rec : record) (records : list record) :
  status rec = "Validated" -> validated (rec :: records) = rec :: validated records.
Proof. intros H. unfold validated. simpl. rewrite H. reflexivity. Qed.

Lemma validated_cons_false (rec : record) (records : list record) :
  String.eqb (status rec) "Validated" = false ->
  validated (rec :: records) = validated records.
Proof. intros H. unfold validated. simpl. rewrite H. reflexivity. Qed.

(** The first loop of the body, label by label. *)
Lemma collect_validated_spec (records : list record)
  (loop_data : gmap string (list string)) :
  validated_in loop_data records ->
  exists loop_data',
    collect_validated records loop_data = Ok loop_data' /\
    dom loop_data' = dom loop_data /\
    forall label texts, loop_data !! label = Some texts ->
      loop_data' !! label = Some (texts ++ texts_of label (validated records)).
Proof.
  unfold validated_in. revert loop_data.
  induction records as [|rec records IH]; intros loop_data Hvalid.
  - exists loop_data. split; [reflexivity|]. split; [reflexivity|].
    intros label texts Hl. unfold texts_of. simpl. rewrite List.app_nil_r. exact Hl.
  - inversion Hvalid as [|? ? Hhead Hrest]; subst.
    cbn [collect_validated].
    destruct (String.eqb (status rec) "Validated") eqn:Hst.
    + apply String.eqb_eq in Hst. rewrite (validated_cons_true _ _ Hst).
      destruct (Hhead Hst) as (l0 & Hann & Hdom).
      apply elem_of_dom in Hdom as [t0 Ht0].
      rewrite Hann. unfold py_getitem. simpl. rewrite Ht0. simpl.
      assert (Hdom1 : dom (<[l0 := t0 ++ [text rec]]> loop_data) = dom loop_data).
      { rewrite dom_insert_L. apply subseteq_union_1_L, singleton_subseteq_l.
        apply elem_of_dom. eauto. }
      destruct (IH (<[l0 := t0 ++ [text rec]]> loop_data))
        as (data' & Hrun & Hdom' & Hspec).
      { rewrite Hdom1. exact Hrest. }
      exists data'. split; [exact Hrun|]. split; [congruence|].
      intros label texts Hl.
      destruct (decide (l0 = label)) as [<-|Hne].
      * rewrite Ht0 in Hl. injection Hl as <-.
        rewrite (Hspec l0 (t0 ++ [text rec])) by apply lookup_insert_eq.
        rewrite (texts_of_cons_eq _ _ _ Hann), <- List.app_assoc. reflexivity.
      * rewrite (Hspec label texts) by (rewrite lookup_insert_ne; assumption).
        rewrite (texts_of_cons_ne _ _ _ _ Hann Hne). reflexivity.
    + destruct (IH loop_data Hrest) as (data' & Hrun & Hdom' & Hspec).
      exists data'. split; [exact Hrun|]. split; [exact Hdom'|].
      intros label texts Hl. rewrite (validated_cons_false _ _ Hst).
      apply Hspec. exact Hl.
Qed.

(** X16.  The body's first loop appends to [loop_data[label]] the texts
    of the validated records annotated [label], in the order of the
    records and without a bound on the length; records of another status
    (discarded ones) are passed over, and no key is added. *)
Theorem collect_validated_appends (records : list record)
  (loop_data : gmap string (list string)) :
  validated_in loop_data records ->
  exists loop_data',
    collect_validated records loop_data = Ok loop_data' /\
    dom loop_data' = dom loop_data /\
    forall label texts, loop_data !! label = Some texts ->
      loop_data' !! label = Some (texts ++ texts_of label (validated records)).
Proof. exact (collect_validated_spec records loop_data). Qed.

Lemma collect_validated_appends_witness :
  let rec_of st label t := {| text := t; prediction := None; annotation := label;
                              status := st; metadata := ∅ |} in
  exists loop_data',
    collect_validated
      [ rec_of "Validated" (Some "World") "Summit opens";
        rec_of "Discarded" None "asdf";
        rec_of "Validated" (Some "World") "Talks resume" ]
      Demo.demo_data = Ok loop_data' /\
    loop_data' !! "World" = Some ["Talks resume"; "Summit opens"; "Talks resume"].
Proof.
  intros rec_of.
  destruct (collect_validated_appends
              [ rec_of "Validated" (Some "World") "Summit opens";
                rec_of "Discarded" None "asdf";
                rec_of "Validated" (Some "World") "Talks resume" ]
              Demo.demo_data) as (loop_data' & Hrun & _ & Hspec).
  - repeat constructor; intros Hst; try discriminate Hst;
      exists "World"; (split; [reflexivity|]); apply elem_of_dom; eexists; reflexivity.
  - exists loop_data'. split; [exact Hrun|].
    apply (Hspec "World" ["Talks resume"]). reflexivity.
Defined.

Lemma collect_validated_app (pre post : list record)
  (loop_data : gmap string (list string)) :
  collect_validated (pre ++ post) loop_data
  = loop_data' ← collect_validated pre loop_data; collect_validated post loop_data'.
Proof.
  revert loop_data. induction pre as [|rec pre IH]; intros loop_data; [reflexivity|].
  cbn [List.app collect_validated].
  destruct (String.eqb (status rec) "Validated"); [|apply IH].
  destruct (annotation rec) as [label|]; [|reflexivity].
  simpl. destruct (py_getitem loop_data label) as [texts|e]; [|reflexivity].
  simpl. apply IH.
Qed.

(** X17.  A validated record that has no annotation, or one that is not
    a key of [loop_data], ends the body with a [KeyError] in its first
    loop: the classifier is not retrained, no prediction is asked for and
    nothing is logged; the only call made is the first [print]. *)
Theorem active_learning_loop_unknown_label {W} (E : env W) (pre post : list record)
  (rec : record) (ctx : context) (g : globals) (s : machine W) (idx : Z) :
  query_params ctx !! "idx" = Some idx ->
  validated_in (loop_data g) pre ->
  status rec = "Validated" ->
  (annotation rec = None \/
   exists label, annotation rec = Some label /\ loop_data g !! label = None) ->
  let e := KeyError (default "None" (annotation rec)) in
  active_learning_loop E (pre ++ rec :: post) ctx g s
  = (Raise e,
     {| world := world s;
        trace := trace s ++
          [ Called (Print "1. train a few-shot classifier with validated data");
            Raised e ] |}).
Proof.
  intros Hidx Hpre Hst Hbad e.
  assert (Hfail : collect_validated (pre ++ rec :: post) (loop_data g) = Raise e).
  { rewrite collect_validated_app.
    destruct (collect_validated_spec pre (loop_data g) Hpre)
      as (data' & -> & Hdom & _).
    simpl. rewrite Hst. simpl.
    destruct Hbad as [Hnone|(label & Hsome & Hnone)].
    - subst e. rewrite Hnone. reflexivity.
    - subst e. rewrite Hsome. simpl. unfold py_getitem.
      assert (Hnone' : data' !! label = None).
      { apply not_elem_of_dom. rewrite Hdom. apply not_elem_of_dom. exact Hnone. }
      rewrite Hnone'. reflexivity. }
  unfold active_learning_loop, py_getitem. rewrite Hidx, Hfail.
  unfold_M. norm_trace. reflexivity.
Qed.

Lemma active_learning_loop_unknown_label_witness :
  let rec_of label t := {| text := t; prediction := None; annotation := label;
                           status := "Validated"; metadata := ∅ |} in
  fst (active_learning_loop (Demo.demo_env "Business" false 5)
         ([rec_of (Some "World") "Summit opens"] ++ rec_of (Some "Sports") "Cup final" :: [])
         {| query_params := {[ "idx" := 0 ]} |}
         {| loop_data := Demo.demo_data; ds := Demo.demo_records |} Demo.boot)
  = Raise (KeyError "Sports").
Proof.
  intros rec_of.
  rewrite (active_learning_loop_unknown_label (Demo.demo_env "Business" false 5)
             [rec_of (Some "World") "Summit opens"] []
             (rec_of (Some "Sports") "Cup final")
             {| query_params := {[ "idx" := 0 ]} |}
             {| loop_data := Demo.demo_data; ds := Demo.demo_records |} Demo.boot 0).
  - reflexivity.
  - reflexivity.
  - repeat constructor. intros _. exists "World". split; [reflexivity|].
    apply elem_of_dom. eexists. reflexivity.
  - reflexivity.
  - right. exists "Sports". split; reflexivity.
Defined.

Lemma evaluate_loop_texts (predictions : list (list (string * Q)))
  (records out : list record) (idx : Z) :
  evaluate_loop predictions records idx = Ok out -> map text out = map text records.
Proof.
  revert records out.
  induction predictions as [|pred predictions IH]; intros [|rec records] out;
    cbn [evaluate_loop]; try (intros [= <-]; reflexivity).
  destruct (py_max snd pred) as [max_score|e]; [|discriminate].
  simpl. destruct (evaluate_loop predictions records idx) as [rest|e] eqn:Hrest;
    [|discriminate].
  simpl. intros [= <-]. simpl. rewrite (IH records rest Hrest). f_equal.
  destruct (float_gt (snd max_score) CERTAINTY_THRESHOLD); reflexivity.
Qed.

(** X18.  [evaluate_records] hands back the records it was given: as
    many, with the same texts, and (since [zip] stops at the shorter list)
    those beyond the classifier's predictions exactly as they were. *)
Theorem evaluate_loop_keeps_records (predictions : list (list (string * Q)))
  (records out : list record) (idx : Z) :
  evaluate_loop predictions records idx = Ok out ->
  List.length out = List.length records /\
  map text out = map text records /\
  skipn (List.length predictions) out = skipn (List.length predictions) records.
Proof.
  revert records out.
  induction predictions as [|pred predictions IH]; intros [|rec records] out;
    cbn [evaluate_loop]; try (intros [= <-]; repeat split; reflexivity).
  destruct (py_max snd pred) as [max_score|e]; [|discriminate].
  simpl. destruct (evaluate_loop predictions records idx) as [rest|e] eqn:Hrest;
    [|discriminate].
  simpl. intros [= <-]. destruct (IH records rest Hrest) as (Hlen & Htexts & Hskip).
  split; [simpl; congruence|]. split; [|exact Hskip].
  simpl. rewrite Htexts. f_equal.
  destruct (float_gt (snd max_score) CERTAINTY_THRESHOLD); reflexivity.
Qed.

Lemma evaluate_loop_keeps_records_witness :
  let rec_of t := {| text := t; prediction := None; annotation := None;
                     status := "Default"; metadata := ∅ |} in
  exists out,
    evaluate_loop [[("World", 1 # 2)]] [rec_of "Summit opens"; rec_of "Cup final"] 5
      = Ok out /\
    skipn 1 out = [rec_of "Cup final"].
Proof.
  intros rec_of. eexists. split; [reflexivity|].
  destruct (evaluate_loop_keeps_records [[("World", 1 # 2)]]
              [rec_of "Summit opens"; rec_of "Cup final"] _ 5 eq_refl)
    as (_ & _ & Hrest).
  exact Hrest.
Defined.

Lemma evaluate_loop_raise_iff (predictions : list (list (string * Q)))
  (records : list record) (idx : Z) (e : exn) :
  evaluate_loop predictions records idx = Raise e <->
  e = ValueError "max() arg is an empty sequence" /\
  exists i, (i < List.length records)%nat /\ predictions !! i = Some [].
Proof.
  revert records e.
  induction predictions as [|pred predictions IH]; intros [|rec records] e;
    cbn [evaluate_loop].
  1-3: split; [discriminate|]; intros (_ & i & Hi & Hp); simpl in Hi;
       solve [ lia | destruct i; discriminate Hp ].
  destruct pred as [|p pred].
  - simpl. split.
    + intros [= <-]. split; [reflexivity|]. exists 0%nat. split; [simpl; lia | reflexivity].
    + intros (-> & _). reflexivity.
  - simpl. destruct (evaluate_loop predictions records idx) as [rest|e'] eqn:Hrest; simpl.
    + split; [discriminate|]. intros (He & [|i] & Hi & Hp); [discriminate Hp|].
      simpl in Hi, Hp.
      assert (Hfail : evaluate_loop predictions records idx = Raise e).
      { apply IH. split; [exact He|]. exists i. split; [lia | exact Hp]. }
      congruence.
    + destruct (proj1 (IH records e') Hrest) as (-> & i & Hi & Hp). split.
      * intros [= <-]. split; [reflexivity|].
        exists (S i). split; [simpl; lia | exact Hp].
      * intros (-> & _). reflexivity.
Qed.

(** X19.  [evaluate_records] fails in its loop exactly when the
    classifier has answered an empty prediction for one of the records it
    is zipped with; the exception is then the [ValueError] of [max]. *)
Theorem evaluate_loop_fails_on_empty_prediction (predictions : list (list (string * Q)))
  (records : list record) (idx : Z) :
  ((exists e, evaluate_loop predictions records idx = Raise e) <->
   exists i, (i < List.length records)%nat /\ predictions !! i = Some []) /\
  (forall e, evaluate_loop predictions records idx = Raise e ->
             exists message, e = ValueError message).
Proof.
  split; [split|].
  - intros (e & He). apply evaluate_loop_raise_iff in He as (_ & Hi). exact Hi.
  - intros Hi. eexists. apply evaluate_loop_raise_iff. split; [reflexivity | exact Hi].
  - intros e He. apply evaluate_loop_raise_iff in He as (-> & _). eexists. reflexivity.
Qed.

Lemma evaluate_loop_fails_on_empty_prediction_witness :
  exists e,
    evaluate_loop [[("World", 1 # 2)]; []]
      [ {| text := "Summit opens"; prediction := None; annotation := None;
           status := "Default"; metadata := ∅ |};
        {| text := "Cup final"; prediction := None; annotation := None;
           status := "Default"; metadata := ∅ |} ] 5
    = Raise e.
Proof.
  apply evaluate_loop_fails_on_empty_prediction.
  exists 1%nat. split; [simpl; lia | reflexivity].
Defined.

Lemma collect_validated_dom (records : list record)
  (loop_data loop_data' : gmap string (list string)) :
  collect_validated records loop_data = Ok loop_data' -> dom loop_data' = dom loop_data.
Proof.
  revert loop_data. induction records as [|rec records IH]; intros loop_data;
    cbn [collect_validated].
  - intros [= <-]. reflexivity.
  - destruct (String.eqb (status rec) "Validated"); [|apply IH].
    destruct (annotation rec) as [label|]; [|discriminate].
    simpl. unfold py_getitem. destruct (loop_data !! label) as [texts|] eqn:Hl;
      [|discriminate].
    simpl. intros Hrest. rewrite (IH _ Hrest), dom_insert_L.
    apply subseteq_union_1_L, singleton_subseteq_l, elem_of_dom. eauto.
Qed.

Lemma firstn_skipn_length {A} (k : nat) (l : list A) :
  firstn k l ++ skipn (List.length (firstn k l)) l = l.
Proof.
  revert l. induction k as [|k IH]; intros [|x l]; simpl; try reflexivity.
  f_equal. apply IH.
Qed.

(** Updating the objects of a slice in place changes nothing that the
    update has kept. *)
Lemma slice_updated_map {A B} (f : A -> B) (l updated : list A) (a b : Z) :
  map f updated = map f (py_slice l a b) ->
  map f (slice_updated l a updated) = map f l.
Proof.
  intros Hmap. unfold slice_updated.
  assert (Hlen : List.length updated = List.length (py_slice l a b)).
  { rewrite <- (List.length_map f updated), Hmap. apply List.length_map. }
  rewrite !List.map_app, Hmap, Hlen. unfold py_slice.
  set (lo := Z.to_nat (clamp_index (Z.of_nat (List.length l)) a)).
  set (k := Z.to_nat (clamp_index (Z.of_nat (List.length l)) b
                      - clamp_index (Z.of_nat (List.length l)) a)).
  rewrite <- !List.map_app. f_equal.
  rewrite Nat.add_comm, <- List.skipn_skipn, firstn_skipn_length.
  apply List.firstn_skipn.
Qed.

(** X20.  A run of the body that completes has moved [idx] on by
    [NUM_SAMPLES_PER_LOOP], has taken the validated records into
    [loop_data] without adding a key, has asked the classifier twice about
    the texts of the next batch [ds[idx+5 : idx+10]], has logged that
    batch, and has left the texts of [ds] as they were; its calls are
    those of the statements, in their order. *)
Theorem active_learning_loop_completes {W} (E : env W) (records : list record)
  (ctx ctx' : context) (g g' : globals) (s s' : machine W) :
  active_learning_loop E records ctx g s = (Ok (ctx', g'), s') ->
  exists idx batch,
    query_params ctx !! "idx" = Some idx /\
    query_params ctx' = <[ "idx" := idx + NUM_SAMPLES_PER_LOOP ]> (query_params ctx) /\
    collect_validated records (loop_data g) = Ok (loop_data g') /\
    dom (loop_data g') = dom (loop_data g) /\
    map text batch
      = map text (py_slice (ds g) (idx + NUM_SAMPLES_PER_LOOP)
                    (idx + NUM_SAMPLES_PER_LOOP + NUM_SAMPLES_PER_LOOP)) /\
    map text (ds g') = map text (ds g) /\
    trace s' = trace s ++
      body_calls (loop_data g') (map text batch) batch (idx + NUM_SAMPLES_PER_LOOP).
Proof.
  unfold active_learning_loop, evaluate_records, py_getitem.
  destruct (query_params ctx !! "idx") as [idx|] eqn:Hidx.
  2: { unfold_M. discriminate. }
  destruct (collect_validated records (loop_data g)) as [loop_data'|e] eqn:Hcollect.
  2: { unfold_M. discriminate. }
  unfold_M. cbn [world trace].
  destruct (classifier_set_training_data E loop_data' (world s)) as [[[]|e] w1];
    [|discriminate].
  cbn [world trace].
  destruct (classifier_pipe E _ w1) as [[predictions|e] w2]; [|discriminate].
  cbn [world trace].
  destruct (evaluate_loop predictions _ _) as [batch|e] eqn:Hbatch; [|discriminate].
  cbn [world trace].
  destruct (classifier_pipe E _ w2) as [[predictions2|e] w3]; [|discriminate].
  cbn [world trace].
  destruct (rg_log E batch DATASET_NAME w3) as [[[]|e] w4]; [|discriminate].
  cbn [world trace].
  intros [= <- <- <-]. cbn [query_params loop_data ds trace].
  pose proof (evaluate_loop_texts _ _ _ _ Hbatch) as Htexts.
  exists idx, batch. split; [reflexivity|]. split; [reflexivity|].
  split; [reflexivity|]. split; [exact (collect_validated_dom _ _ _ Hcollect)|].
  split; [exact Htexts|]. split.
  - apply (slice_updated_map text (ds g) batch (idx + NUM_SAMPLES_PER_LOOP)
             (idx + NUM_SAMPLES_PER_LOOP + NUM_SAMPLES_PER_LOOP)).
    exact Htexts.
  - rewrite Htexts. unfold body_calls. rewrite <- !List.app_assoc. reflexivity.
Qed.

Lemma active_learning_loop_completes_witness :
  exists idx batch ctx' g' s',
    active_learning_loop (Demo.demo_env "Business" false 5) Demo.demo_records
      {| query_params := {[ "idx" := 0 ]} |}
      {| loop_data := Demo.demo_data; ds := Demo.demo_records |} Demo.boot
      = (Ok (ctx', g'), s') /\
    query_params ctx' = <[ "idx" := idx + NUM_SAMPLES_PER_LOOP ]> {[ "idx" := 0 ]} /\
    map text (ds g') = map text Demo.demo_records /\
    trace s' = [] ++
      body_calls (loop_data g') (map text batch) batch (idx + NUM_SAMPLES_PER_LOOP).
Proof.
  destruct (active_learning_loop (Demo.demo_env "Business" false 5) Demo.demo_records
              {| query_params := {[ "idx" := 0 ]} |}
              {| loop_data := Demo.demo_data; ds := Demo.demo_records |} Demo.boot)
    as [[[ctx' g']|e] s'] eqn:Hrun.
  2: { vm_compute in Hrun. discriminate Hrun. }
  destruct (active_learning_loop_completes _ _ _ _ _ _ _ _ Hrun)
    as (idx & batch & _ & Hctx & _ & _ & _ & Hds & Htrace).
  exists idx, batch, ctx', g', s'. split; [reflexivity|].
  split; [exact Hctx|]. split; [exact Hds | exact Htrace].
Defined.

End LoopBodyFacts.

(** ** The backup loop and its shell commands *)

Section DvcCommandsFacts.
Import Py DvcBackup DvcCommands.
Context {W : Type} (E : env W).





End DvcCommandsFacts.

Section DvcCommandsClaims.
Import Py DvcBackup DvcCommands.




Lemma bind_ext {W A B} (m1 m2 : M W A) (k1 k2 : A -> M W B) (s : machine W) :
  m1 s = m2 s -> (forall a s1, k1 a s1 = k2 a s1) -> (m1 ≫= k1) s = (m2 ≫= k2) s.
Proof.
  intros Hm Hk. unfold mbind, M_bind. rewrite Hm.
  destruct (m2 s) as [[a|e] s1]; [apply Hk | reflexivity].
Qed.

Lemma system_with_statuses {W A} (E : env W) (exit_status : string -> W -> Z)
  (command : string) (k1 k2 : M W A) (s : machine W) :
  (forall s1, k1 s1 = k2 s1) ->
  (system (with_statuses E exit_status) command;; k1) s = (system E command;; k2) s.
Proof.
  intros Hk. unfold system, invoke, mbind, M_bind. cbn [os_system with_statuses].
  destruct (os_system E command (world s)) as [st w']. apply Hk.
Qed.

Lemma dvc_add_with_statuses {W} (E : env W) (exit_status : string -> W -> Z)
  (files : list string) (s : machine W) :
  for_each files (dvc_add (with_statuses E exit_status)) s = for_each files (dvc_add E) s.
Proof.
  revert s. induction files as [|file files IH]; intros s; [reflexivity|].
  cbn [for_each]. apply bind_ext.
  - apply system_with_statuses. reflexivity.
  - intros _ s1. apply IH.
Qed.

(** X23.  The exit statuses of the dvc and git commands are never
    looked at: whatever the commands return, failed or not, the backup
    makes the same calls and ends (or goes on) the same way. *)
Theorem exit_statuses_are_ignored {W} (E : env W) (exit_status : string -> W -> Z)
  (fuel : nat) (datasets : list string) (duration : Z) (s : machine W) :
  dataset_backupper (with_statuses E exit_status) fuel datasets duration s
  = dataset_backupper E fuel datasets duration s.
Proof.
  revert s. induction fuel as [|fuel IH]; intros s; [reflexivity|].
  rewrite !dataset_backupper_step.
  assert (Hturn : backup_iteration (with_statuses E exit_status) datasets duration s
                  = backup_iteration E datasets duration s).
  { unfold backup_iteration.
    apply bind_ext; [reflexivity|]. intros _ s1.
    apply bind_ext; [reflexivity|]. intros files s2.
    apply bind_ext; [apply dvc_add_with_statuses|]. intros _ s3.
    apply system_with_statuses. intros s4.
    apply system_with_statuses. intros s5.
    apply system_with_statuses. intros s6.
    reflexivity. }
  rewrite Hturn.
  destruct (backup_iteration E datasets duration s) as [[[]|e] s1]; [apply IH | reflexivity].
Qed.

End DvcCommandsClaims.
